(** * img-to-ascii: a shallow embedding of [ascii_art.py]

    The script turns a raster image into lines of characters and renders
    those lines back into a bitmap.  This file embeds its functions
    ([char_cell_size], [image_to_ascii_lines], [render_ascii_to_image],
    [main]) and proves the properties claimed by the specification.
    Files, directories and the standard output are a state ([world]) that
    the functions pass along; a Python exception is a [Raise] result.

    Numbers are modelled as the script has them:
    - Python [int] is [Z];
    - Python [float] is IEEE 754 binary64, taken from the Standard
      Library's executable specification [SpecFloat] (precision 53,
      [emax] 1024);
    - [np.float32] is IEEE 754 binary32 (precision 24, [emax] 128);
    - [np.uint8] is a [Z] with its wrap-around modulo 256 written out;
    - a Python [str] is a list of Unicode code points. *)

From Stdlib Require Import ZArith QArith Qround List Lia Bool String Ascii SpecFloat.
From Stdlib Require Import DecimalString.
Import ListNotations.
Open Scope Z_scope.

(** ** Python: exceptions, results, strings *)

Module Py.

Inductive exn : Type :=
| ValueError (msg : string)
| ZeroDivisionError (msg : string)
| OverflowError (msg : string)
| IndexError (msg : string)
| OSError (msg : string)
| UnicodeEncodeError (encoding : string) (start stop : Z)
| SystemExit (msg : string).

Inductive result (A : Type) : Type :=
| Ok (a : A)
| Raise (e : exn).
Arguments Ok {A} a.
Arguments Raise {A} e.

Definition bind {A B : Type} (r : result A) (k : A -> result B) : result B :=
  match r with
  | Ok a => k a
  | Raise e => Raise e
  end.

Fixpoint mapM {A B : Type} (f : A -> result B) (l : list A) : result (list B) :=
  match l with
  | [] => Ok []
  | a :: l' =>
      match f a with
      | Raise e => Raise e
      | Ok b =>
          match mapM f l' with
          | Raise e => Raise e
          | Ok bs => Ok (b :: bs)
          end
      end
  end.

(** A character is its code point, a [str] the list of its characters. *)
Definition char := N.
Definition str := list char.

Definition str_of_string (s : string) : str :=
  map N_of_ascii (list_ascii_of_string s).

(** [len(s)] *)
Definition len {A : Type} (s : list A) : Z := Z.of_nat (List.length s).

(** [s[i]]: negative indices count from the end, anything outside
    [-len(s) .. len(s)-1] raises [IndexError]. *)
Definition getitem (s : str) (i : Z) : result char :=
  let j := if i <? 0 then i + len s else i in
  if (j <? 0) || (len s <=? j) then Raise (IndexError "string index out of range")
  else match nth_error s (Z.to_nat j) with
       | Some c => Ok c
       | None => Raise (IndexError "string index out of range")
       end.

(** *** [float]: binary64 *)

Definition float := spec_float.

Definition fmul : float -> float -> float := SFmul 53 1024.
Definition fadd : float -> float -> float := SFadd 53 1024.
Definition fdiv : float -> float -> float := SFdiv 53 1024.

(** [float(z)]: correctly rounded, [OverflowError] past the largest double. *)
Definition float_of_int (z : Z) : result float :=
  match binary_normalize 53 1024 z 0 false with
  | S754_infinity _ => Raise (OverflowError "int too large to convert to float")
  | f => Ok f
  end.

Definition is_zero (x : float) : bool :=
  match x with S754_zero _ => true | _ => false end.

(** [x / y] on floats: Python raises where IEEE would return an infinity
    or a NaN for a zero divisor. *)
Definition truediv (x y : float) : result float :=
  if is_zero y then Raise (ZeroDivisionError "float division by zero")
  else Ok (fdiv x y).

(** The integer part of [m * 2^e], for [m] positive: the bits below the
    binary point are dropped. *)
Definition trunc_pos (m : positive) (e : Z) : Z :=
  if 0 <=? e then Z.shiftl (Zpos m) e else Z.shiftr (Zpos m) (- e).

(** [int(x)]: truncation toward zero. *)
Definition int (x : float) : result Z :=
  match x with
  | S754_zero _ => Ok 0
  | S754_finite s m e => Ok (if s then - trunc_pos m e else trunc_pos m e)
  | S754_infinity _ => Raise (OverflowError "cannot convert float infinity to integer")
  | S754_nan => Raise (ValueError "cannot convert float NaN to integer")
  end.

(** The rational number a finite float stands for (0 for the others). *)
Definition Q_of_float (x : float) : Q :=
  match x with
  | S754_finite s m e =>
      let q := if 0 <=? e then inject_Z (Zpos m * 2 ^ e)
               else Qmake (Zpos m) (Z.to_pos (2 ^ (- e))) in
      if s then Qopp q else q
  | _ => 0%Q
  end.

End Py.

Notation "x <- c1 ;; c2" := (Py.bind c1 (fun x => c2))
  (at level 61, c1 at next level, right associativity).

(** ** NumPy: the [float32], [uint8] and [int32] element operations *)

Module Np.

Definition float32 := spec_float.

Definition f32_of_Z (z : Z) : float32 := binary_normalize 24 128 z 0 false.
Definition f32_div : float32 -> float32 -> float32 := SFdiv 24 128.
Definition f32_sub : float32 -> float32 -> float32 := SFsub 24 128.
Definition f32_mul : float32 -> float32 -> float32 := SFmul 24 128.

(** [np.uint8] subtraction wraps modulo 256. *)
Definition uint8_sub (a b : Z) : Z := (a - b) mod 256.

(** The integer nearest to [m * 2^e], ties to the even one. *)
Definition round_half_even (m : Z) (e : Z) : Z :=
  if 0 <=? e then m * 2 ^ e
  else
    let d := 2 ^ (- e) in
    let q := m / d in
    let r := m mod d in
    match 2 * r ?= d with
    | Lt => q
    | Gt => q + 1
    | Eq => if Z.even q then q else q + 1
    end.

(** [ndarray.round()] on one [float32] element: the nearest integral
    value, ties to even, again as a [float32]. *)
Definition round (x : float32) : float32 :=
  match x with
  | S754_finite s m e =>
      binary_normalize 24 128
        (if s then - round_half_even (Zpos m) e else round_half_even (Zpos m) e) 0 s
  | _ => x
  end.

(** [astype(np.int32)] on one [float32] element: truncation toward zero;
    a NaN, an infinity or a value outside the [int32] range gives the
    "integer indefinite" value [-2^31] of the conversion instruction. *)
Definition astype_int32 (x : float32) : Z :=
  match x with
  | S754_zero _ => 0
  | S754_finite s m e =>
      let z := if s then - Py.trunc_pos m e else Py.trunc_pos m e in
      if (- 2 ^ 31 <=? z) && (z <? 2 ^ 31) then z else - 2 ^ 31
  | _ => - 2 ^ 31
  end.

(** [np.clip(x, lo, hi)] on one element: [minimum(maximum(x, lo), hi)]. *)
Definition clip (x lo hi : Z) : Z := Z.min (Z.max x lo) hi.

End Np.

(** ** Pillow: images *)

Module PIL.

(** A mode-"L" image: its [size] is (width, height), its data is one list
    per row, top to bottom, of 8-bit intensities. *)
Record Gray : Type := mkGray { gsize : Z * Z; gdata : list (list Z) }.

(** An image as the script receives it: mode "L" or mode "RGB". *)
Inductive Image : Type :=
| L (g : Gray)
| RGB (size : Z * Z) (data : list (list (Z * Z * Z))).

Definition is_uint8 (v : Z) : Prop := 0 <= v <= 255.

(** The data of a well-formed image has [height] rows of [width] bytes. *)
Definition wf (g : Gray) : Prop :=
  0 <= fst (gsize g) /\ 0 <= snd (gsize g) /\
  List.length (gdata g) = Z.to_nat (snd (gsize g)) /\
  Forall (fun row => List.length row = Z.to_nat (fst (gsize g)) /\ Forall is_uint8 row)
         (gdata g).

(** Every pixel has intensity [v]. *)
Definition uniform (g : Gray) (v : Z) : Prop :=
  Forall (fun row => Forall (fun x => x = v) row) (gdata g).

(** A source grid: well-formed, with at least one pixel. *)
Definition source_grid (g : Gray) : Prop :=
  wf g /\ 0 < fst (gsize g) /\ 0 < snd (gsize g).

(** What the script relies on from [Image.resize] on a mode-"L" image:
    the result has the requested size and is a well-formed image. *)
Definition resize_contract (resize : Gray -> Z * Z -> Gray) : Prop :=
  forall g w h, source_grid g -> 0 < w -> 0 < h ->
    gsize (resize g (w, h)) = (w, h) /\ wf (resize g (w, h)).

(** An interpolating filter whose weights sum to one reproduces a
    constant image. *)
Definition resize_constant (resize : Gray -> Z * Z -> Gray) : Prop :=
  forall g v w h, source_grid g -> 0 < w -> 0 < h ->
    uniform g v -> uniform (resize g (w, h)) v.

(** Nearest-neighbour resampling, the simplest filter that meets both
    contracts; it instantiates them in the examples below. *)
Definition getpixel (g : Gray) (x y : Z) : Z :=
  nth (Z.to_nat x) (nth (Z.to_nat y) (gdata g) []) 0.

Definition zrange (n : Z) : list Z := map Z.of_nat (seq 0 (Z.to_nat n)).

Definition resize_nearest (g : Gray) (wh : Z * Z) : Gray :=
  let '(w, h) := wh in
  let '(w0, h0) := gsize g in
  mkGray (w, h)
    (map (fun y => map (fun x => getpixel g (x * w0 / w) (y * h0 / h)) (zrange w))
         (zrange h)).

(** An image of one intensity. *)
Definition solid (w h v : Z) : Gray :=
  mkGray (w, h) (repeat (repeat v (Z.to_nat w)) (Z.to_nat h)).

End PIL.

(** ** The script *)

Import Py.

Definition DEFAULT_CHARSET : str := str_of_string "@%#*+=-:. ".

Inductive charset_name : Type := dense | blocks | simple | dots.

(** [CHARSETS[name]]; the command line restricts [name] to the four keys. *)
Definition CHARSETS (name : charset_name) : str :=
  match name with
  | dense => str_of_string "@%#*+=-:. "
  | blocks => [0x2588; 0x2593; 0x2592; 0x2591; 0x20]%N
  | simple => str_of_string "#*+=-:. "
  | dots => [0x2022; 0x3A; 0xB7; 0x2E; 0x20]%N
  end.

(** An operation applied to every element of a two-dimensional array. *)
Definition amap {A B : Type} (f : A -> B) (a : list (list A)) : list (list B) :=
  map (map f) a.

Definition width_too_small : string :=
  "Width is too small. Try >= 40, ideally 80–200.".

(** "Compute target size with aspect correction": [(width, new_h)]. *)
Definition target_size (size0 : Z * Z) (width : Z) (scale_y : float) : result (Z * Z) :=
  let '(w0, h0) := size0 in
  fw0 <- float_of_int w0 ;;
  fwidth <- float_of_int width ;;
  ratio <- truediv fwidth fw0 ;;
  fh0 <- float_of_int h0 ;;
  k <- int (fmul (fmul fh0 ratio) scale_y) ;;
  Ok (width, Z.max 1 k).

(** "Map intensities to character indices": from the [uint8] array of the
    resized image to the clipped [int32] array [idx]. *)
Definition palette_indices (charset : str) (invert : bool) (arr : list (list Z))
  : list (list Z) :=
  let arr := if invert then amap (Np.uint8_sub 255) arr else arr in
  let vals :=
    amap (fun a => Np.f32_sub (Np.f32_of_Z 1) (Np.f32_div (Np.f32_of_Z a) (Np.f32_of_Z 255)))
         arr in
  let idx :=
    amap (fun x => Np.astype_int32 (Np.round (Np.f32_mul x (Np.f32_of_Z (len charset - 1)))))
         vals in
  amap (fun i => Np.clip i 0 (len charset - 1)) idx.

(** "Build lines": [["".join(charset[i] for i in row) for row in idx]]. *)
Definition build_lines (charset : str) (idx : list (list Z)) : result (list str) :=
  mapM (fun row => mapM (fun i => getitem charset i) row) idx.

Section Conversion.

(** Pillow's per-pixel RGB to L conversion and its bicubic [resize]. *)
Variable rgb2l : Z * Z * Z -> Z.
Variable resize : PIL.Gray -> Z * Z -> PIL.Gray.

(** [img.convert("L")]: a copy for a mode-"L" image. *)
Definition convert_L (img : PIL.Image) : PIL.Gray :=
  match img with
  | PIL.L g => g
  | PIL.RGB size data => PIL.mkGray size (amap rgb2l data)
  end.

(** The resized grayscale image and its index array: everything
    [image_to_ascii_lines] computes before it builds the lines. *)
Definition index_grid (img : PIL.Image) (width : Z) (charset : str) (invert : bool)
    (scale_y : float) : result (list (list Z)) :=
  if width <? 10 then Raise (ValueError width_too_small)
  else
    let gray := convert_L img in
    size1 <- target_size (PIL.gsize gray) width scale_y ;;
    let gray := resize gray size1 in
    let arr := PIL.gdata gray in
    Ok (palette_indices charset invert arr).

Definition image_to_ascii_lines (img : PIL.Image) (width : Z) (charset : str)
    (invert : bool) (scale_y : float) : result (list str) :=
  idx <- index_grid img width charset invert scale_y ;;
  build_lines charset idx.

End Conversion.

(** ** Fonts, files and the rest of the pipeline *)

(** A font as the script uses it: whether it is a [FreeTypeFont], the
    path it was opened from, and its [getbbox]. *)
Record Font : Type := mkFont {
  is_freetype : bool;
  font_file : string;
  getbbox : str -> Z * Z * Z * Z
}.

(** The canvas of [render_ascii_to_image]: its size, its background and
    the [draw.text] calls made on it, in order. *)
Record Canvas : Type := mkCanvas {
  csize : Z * Z;
  cbg : string;
  ctexts : list (Z * Z * str * string)
}.

Inductive file : Type :=
| Dir
| Picture (img : PIL.Image)
| Text (content : str)
| Png (c : Canvas).

(** What a run can observe and change: the files and the standard output. *)
Record world : Type := mkWorld {
  fs : string -> option file;
  stdout : list string
}.

Definition write (w : world) (p : string) (f : file) : world :=
  mkWorld (fun q => if String.eqb q p then Some f else fs w q) (stdout w).

Definition print (w : world) (line : string) : world :=
  mkWorld (fs w) (stdout w ++ [line]).

(** Truth value of an optional command-line string: [None] and the empty
    string are false. *)
Definition truthy (o : option string) : bool :=
  match o with
  | None => false
  | Some s => negb (String.eqb s "")
  end.

Definition WINDOWS_FONT_CANDIDATES : list string :=
  [ "C:\Windows\Fonts\consola.ttf"%string;
    "C:\Windows\Fonts\cour.ttf"%string;
    "C:\Windows\Fonts\lucon.ttf"%string ].

(** [max((len(line) for line in lines), default=0)] *)
Definition max_len (lines : list str) : Z :=
  fold_right Z.max 0 (map len lines).

Definition char_cell_size (font : Font) : Z * Z :=
  let '(x0, y0, x1, y1) := getbbox font (str_of_string "A") in
  let cw := x1 - x0 in
  let ch := y1 - y0 in
  (Z.max 1 cw, Z.max 1 ch).

(** *** Encoding errors *)

(** The length of the run of characters at the head of [s] that a codec
    cannot encode. *)
Fixpoint bad_run (ok : char -> bool) (s : str) : Z :=
  match s with
  | [] => 0
  | c :: rest => if ok c then 0 else 1 + bad_run ok rest
  end.

(** The [start] and [end] a codec reports in its [UnicodeEncodeError]:
    the first character it cannot encode and the end of the run of such
    characters that begins there. *)
Fixpoint encode_error (ok : char -> bool) (s : str) (pos : Z) : option (Z * Z) :=
  match s with
  | [] => None
  | c :: rest =>
      if ok c then encode_error ok rest (pos + 1)
      else Some (pos, pos + 1 + bad_run ok rest)
  end.

(** Latin-1 encodes the code points below 256; UTF-8 everything but the
    surrogates. *)
Definition is_latin1 (c : char) : bool := (c <? 256)%N.
Definition is_utf8 (c : char) : bool := (c <? 55296)%N || (57343 <? c)%N.

(** What [draw.text] does with the text of one line: a FreeType font
    draws any text, the built-in bitmap font takes the text as Latin-1
    bytes. *)
Definition draw_text (font : Font) (line : str) : result unit :=
  if is_freetype font then Ok tt
  else match encode_error is_latin1 line 0 with
       | Some (start, stop) => Raise (UnicodeEncodeError "latin-1" start stop)
       | None => Ok tt
       end.

(** The doubles written [0.6] and [0.4] in the script. *)
Definition float_0_6 : float := S754_finite false 5404319552844595 (-53).
Definition float_0_4 : float := S754_finite false 7205759403792794 (-54).

(** The gradient value of [generate_demo_image] at column [x], row [y]. *)
Definition demo_value (size x y : Z) : result Z :=
  fx <- float_of_int x ;;
  fy <- float_of_int y ;;
  fs1 <- float_of_int (size - 1) ;;
  qx <- truediv fx fs1 ;;
  qy <- truediv fy fs1 ;;
  f255 <- float_of_int 255 ;;
  int (fmul f255 (fadd (fmul qx float_0_6) (fmul qy float_0_4))).

Section Script.

(** Pillow and pathlib, as far as the script calls them: the RGB to L
    conversion, the bicubic resize, the font loader and the built-in
    font, [Path.stem] and [Path.parent], the colour names of
    [ImageColor], the image format [Image.save] picks for a file name
    ([ValueError] for an extension it does not know) and the writer of
    that format, given an RGB image. *)
Variable rgb2l : Z * Z * Z -> Z.
Variable resize : PIL.Gray -> Z * Z -> PIL.Gray.
Variable truetype : string -> Z -> result Font.
Variable load_default : Font.
Variable stem : string -> string.
Variable parent : string -> string.
Variable getrgb : string -> result (Z * Z * Z).
Variable save_format : string -> result string.
Variable save_handler : string -> result unit.

(** *** The file system calls *)

(** What is at a path: the current directory and the root of the file
    system (the paths that are their own parent) are directories that
    always exist. *)
Definition lookup (w : world) (p : string) : option file :=
  if String.eqb (parent p) p then Some Dir else fs w p.

(** [Path(p).exists()] *)
Definition exists_ (w : world) (p : string) : bool :=
  match lookup w p with Some _ => true | None => false end.

(** [p.mkdir(parents=True, exist_ok=True)]: nothing to do for a
    directory, [FileExistsError] for another file; a missing directory is
    made in its parent, after the parent itself where that is missing,
    and [NotADirectoryError] is raised under a parent that is a file.
    A path has no more ancestors than characters, so its length bounds
    the recursion. *)
Fixpoint mkdir_parents (fuel : nat) (w : world) (p : string) : world * result unit :=
  match lookup w p with
  | Some Dir => (w, Ok tt)
  | Some _ => (w, Raise (OSError "File exists"))
  | None =>
      match lookup w (parent p) with
      | Some Dir => (write w p Dir, Ok tt)
      | Some _ => (w, Raise (OSError "Not a directory"))
      | None =>
          match fuel with
          | O => (w, Raise (OSError "No such file or directory"))
          | S fuel' =>
              match mkdir_parents fuel' w (parent p) with
              | (w', Ok _) => (write w' p Dir, Ok tt)
              | (w', Raise e) => (w', Raise e)
              end
          end
      end
  end.

Definition mkdir (w : world) (p : string) : world * result unit :=
  mkdir_parents (String.length p) w p.

(** Opening [p] for writing: it must not be a directory and its parent
    must be one. *)
Definition open_for_writing (w : world) (p : string) : result unit :=
  match lookup w p with
  | Some Dir => Raise (OSError "Is a directory")
  | _ =>
      match lookup w (parent p) with
      | Some Dir => Ok tt
      | Some _ => Raise (OSError "Not a directory")
      | None => Raise (OSError "No such file or directory")
      end
  end.

(** [p.write_text(content, encoding="utf-8")]: the file is created when
    it is opened, before the text is encoded. *)
Definition write_text (w : world) (p : string) (content : str) : world * result unit :=
  match open_for_writing w p with
  | Raise e => (w, Raise e)
  | Ok _ =>
      match encode_error is_utf8 content 0 with
      | Some (start, stop) =>
          (write w p (Text []), Raise (UnicodeEncodeError "utf-8" start stop))
      | None => (write w p (Text content), Ok tt)
      end
  end.

(** [im.save(p)]: the format is chosen by the file name before the file
    is opened; when the writer of the format fails, a file that [save]
    created is removed again and one that was there before is left
    empty. *)
Definition save (w : world) (p : string) (f : file) : world * result unit :=
  match save_format p with
  | Raise e => (w, Raise e)
  | Ok format =>
      match open_for_writing w p with
      | Raise e => (w, Raise e)
      | Ok _ =>
          match save_handler format with
          | Raise e => ((if exists_ w p then write w p (Text []) else w), Raise e)
          | Ok _ => (write w p f, Ok tt)
          end
      end
  end.

(** *** Fonts *)

(** "Try requested path, then common Windows monospace fonts, else
    default bitmap." *)
Fixpoint first_candidate (w : world) (candidates : list string) : Font :=
  match candidates with
  | [] => load_default
  | candidate :: rest =>
      if exists_ w candidate then
        match truetype candidate 12 with
        | Ok f => f
        | Raise _ => first_candidate w rest
        end
      else first_candidate w rest
  end.

Definition find_monospace_font (w : world) (font_path : option string) : Font :=
  match font_path with
  | Some fp =>
      if truthy font_path && exists_ w fp then
        match truetype fp 12 with
        | Ok f => f
        | Raise _ => first_candidate w WINDOWS_FONT_CANDIDATES
        end
      else first_candidate w WINDOWS_FONT_CANDIDATES
  | None => first_candidate w WINDOWS_FONT_CANDIDATES
  end.

(** "Load font": the font found, re-opened at the requested size when it
    is a FreeType font and the size is not 12. *)
Definition load_font (w : world) (font_path : option string) (font_size : Z)
  : result Font :=
  let font := find_monospace_font w font_path in
  if is_freetype font && negb (font_size =? 12) then truetype (font_file font) font_size
  else Ok font.

(** *** The demo image *)

Definition generate_demo_image (w : world) (path : string) (size : Z)
  : world * result string :=
  match mkdir w (parent path) with
  | (w, Raise e) => (w, Raise e)
  | (w, Ok _) =>
      if size <? 0 then (w, Raise (ValueError "negative dimensions are not allowed"))
      else
        match mapM (fun y => mapM (fun x => v <- demo_value size x y ;; Ok (v, v, v))
                                   (PIL.zrange size))
                   (PIL.zrange size) with
        | Raise e => (w, Raise e)
        | Ok arr =>
            match save w path (Picture (PIL.RGB (size, size) arr)) with
            | (w, Raise e) => (w, Raise e)
            | (w, Ok _) => (w, Ok path)
            end
        end
  end.

(** *** The rasterizer *)

(** The drawing loop: each [draw.text] call resolves the fill colour and
    then draws the text of its line; the calls made are recorded. *)
Fixpoint draw_loop (font : Font) (fg : string) (lines : list str) (y ch : Z)
  : result (list (Z * Z * str * string)) :=
  match lines with
  | [] => Ok []
  | line :: rest =>
      _ <- getrgb fg ;;
      _ <- draw_text font line ;;
      calls <- draw_loop font fg rest (y + ch) ch ;;
      Ok ((0, y, line, fg) :: calls)
  end.

Definition render_ascii_to_image (w : world) (lines : list str) (out_path : string)
    (font_path : option string) (font_size : Z) (fg bg : string)
  : world * result string :=
  match mkdir w (parent out_path) with
  | (w, Raise e) => (w, Raise e)
  | (w, Ok _) =>
      match load_font w font_path font_size with
      | Raise e => (w, Raise e)
      | Ok font =>
          let '(cw, ch) := char_cell_size font in
          let num_rows := len lines in
          let num_cols := max_len lines in
          let '(num_cols, num_rows, lines) :=
            if (num_cols =? 0) || (num_rows =? 0) then (1, 1, [[]])
            else (num_cols, num_rows, lines) in
          let img_w := Z.max 1 (num_cols * cw) in
          let img_h := Z.max 1 (num_rows * ch) in
          match getrgb bg with
          | Raise e => (w, Raise e)
          | Ok _ =>
              match draw_loop font fg lines 0 ch with
              | Raise e => (w, Raise e)
              | Ok calls =>
                  let im := mkCanvas (img_w, img_h) bg calls in
                  match save w out_path (Png im) with
                  | (w, Raise e) => (w, Raise e)
                  | (w, Ok _) => (w, Ok out_path)
                  end
              end
          end
      end
  end.

(** *** The command line and [main] *)

(** The parsed command line; [charset] is already one of the four keys. *)
Record Args : Type := mkArgs {
  input : option string;
  width : Z;
  invert : bool;
  charset : charset_name;
  scale_y : float;
  out_text : option string;
  out_image : option string;
  font_path : option string;
  font_size : Z;
  demo : bool
}.

(** [str(z)] in decimal, as an f-string formats an [int]. *)
Definition str_of_int (z : Z) : string := NilZero.string_of_int (Z.to_int z).

(** [Image.open(p)]: only a picture file can be opened. *)
Definition image_open (w : world) (p : string) : result PIL.Image :=
  match lookup w p with
  | Some (Picture img) => Ok img
  | Some Dir => Raise (OSError "Is a directory")
  | Some _ => Raise (OSError "cannot identify image file")
  | None => Raise (OSError "No such file or directory")
  end.

(** [img.convert("RGB")] *)
Definition convert_RGB (img : PIL.Image) : PIL.Image :=
  match img with
  | PIL.L g => PIL.RGB (PIL.gsize g) (amap (fun v => (v, v, v)) (PIL.gdata g))
  | PIL.RGB size data => PIL.RGB size data
  end.

(** ["\n".join(lines)] *)
Fixpoint join_lines (lines : list str) : str :=
  match lines with
  | [] => []
  | [line] => line
  | line :: rest => line ++ 10%N :: join_lines rest
  end.

(** "Resolve input": the path of the image to convert, or [SystemExit]. *)
Definition resolve_input (w : world) (args : Args) : world * result string :=
  if demo args then
    let input_path := "examples/demo.png"%string in
    if negb (exists_ w input_path) then
      let w := print w "Creating demo gradient: examples/demo.png" in
      generate_demo_image w input_path 256
    else (w, Ok input_path)
  else
    match input args with
    | Some p =>
        if negb (truthy (input args)) then
          (w, Raise (SystemExit "Error: provide --input <path> or use --demo."))
        else if negb (exists_ w p) then
          (w, Raise (SystemExit ("Error: input image not found: " ++ p)))
        else (w, Ok p)
    | None => (w, Raise (SystemExit "Error: provide --input <path> or use --demo."))
    end.

Definition main (w : world) (args : Args) : world * result unit :=
  match resolve_input w args with
  | (w, Raise e) => (w, Raise e)
  | (w, Ok input_path) =>
      match image_open w input_path with
      | Raise e => (w, Raise e)
      | Ok img0 =>
          let img := convert_RGB img0 in
          let charset := CHARSETS (charset args) in
          match image_to_ascii_lines rgb2l resize img (width args) charset (invert args)
                                     (scale_y args) with
          | Raise e => (w, Raise e)
          | Ok lines =>
              let out_dir := "out"%string in
              match mkdir w out_dir with
              | (w, Raise e) => (w, Raise e)
              | (w, Ok _) =>
                  let stem := stem input_path in
                  let out_txt :=
                    match out_text args with
                    | Some p => if truthy (out_text args) then p
                                else (out_dir ++ "/" ++ stem ++ "_" ++ str_of_int (width args) ++ ".txt")%string
                    | None => (out_dir ++ "/" ++ stem ++ "_" ++ str_of_int (width args) ++ ".txt")%string
                    end in
                  let out_png :=
                    match out_image args with
                    | Some p => if truthy (out_image args) then p
                                else (out_dir ++ "/" ++ stem ++ "_" ++ str_of_int (width args) ++ ".png")%string
                    | None => (out_dir ++ "/" ++ stem ++ "_" ++ str_of_int (width args) ++ ".png")%string
                    end in
                  match write_text w out_txt (join_lines lines) with
                  | (w, Raise e) => (w, Raise e)
                  | (w, Ok _) =>
                      match render_ascii_to_image w lines out_png (font_path args)
                                                  (font_size args) "black" "white" with
                      | (w, Raise e) => (w, Raise e)
                      | (w, Ok _) =>
                          let w := print w ("ASCII text saved to: " ++ out_txt) in
                          let w := print w ("Rendered PNG saved to: " ++ out_png) in
                          let w := print w "Done." in
                          (w, Ok tt)
                      end
                  end
              end
          end
      end
  end.

(** The exit status of the interpreter: 0 after a normal return, 1 after
    [SystemExit] with a message (which goes to the standard error) and
    after any other uncaught exception. *)
Definition exit_status {A : Type} (r : result A) : Z :=
  match r with
  | Ok _ => 0
  | Raise _ => 1
  end.

Definition exit_message {A : Type} (r : result A) : option string :=
  match r with
  | Raise (SystemExit msg) => Some msg
  | _ => None
  end.

End Script.

(** ** Definitions used by the statements: the per-element quantizer,
    the formulas of the specification, and concrete values for the
    examples *)

(** The staged array operations amount to one function per element. *)
Definition quantize (n : Z) (v : Z) : Z :=
  Np.clip
    (Np.astype_int32
       (Np.round
          (Np.f32_mul
             (Np.f32_sub (Np.f32_of_Z 1) (Np.f32_div (Np.f32_of_Z v) (Np.f32_of_Z 255)))
             (Np.f32_of_Z (n - 1)))))
    0 (n - 1).

(** The exceptions of the size arithmetic: a zero-width source, an
    integer or a product too large for a double, a NaN scale factor. *)
Definition arith_exn (e : exn) : Prop :=
  match e with
  | ZeroDivisionError _ | OverflowError _ => True
  | ValueError msg => msg = "cannot convert float NaN to integer"%string
  | _ => False
  end.

(** Concrete values used in the examples: the luma transform of the
    Pillow documentation, (299 R + 587 G + 114 B) / 1000, and the doubles
    [0.25], [0.5] and [1.0]. *)
Definition luma (p : Z * Z * Z) : Z :=
  let '(r, g, b) := p in (299 * r + 587 * g + 114 * b) / 1000.

Definition float_0_25 : float := S754_finite false 4503599627370496 (-54).
Definition float_0_5 : float := S754_finite false 4503599627370496 (-53).
Definition float_1_0 : float := S754_finite false 4503599627370496 (-52).

(** The integer nearest to a rational, ties to the even one (the
    rounding of Python's [round] and of [ndarray.round]). *)
Definition Qround_half_even (q : Q) : Z :=
  let f := Qfloor q in
  match Qcompare (q - inject_Z f) (1 # 2) with
  | Lt => f
  | Gt => f + 1
  | Eq => if Z.even f then f else f + 1
  end.

(** The target height in the words of the specification:
    round(H0 * (W / W0) * s), in exact arithmetic. *)
Definition spec_rows (w0 h0 w : Z) (s : Q) : Z :=
  Qround_half_even (inject_Z h0 * (inject_Z w / inject_Z w0) * s).

(** The palette index in the words of the specification:
    round((1 - v/255) * (N - 1)), clamped to [0, N-1], in exact
    arithmetic. *)
Definition spec_index (n v : Z) : Z :=
  Np.clip (Qround_half_even ((1 - inject_Z v / 255) * inject_Z (n - 1))) 0 (n - 1).

(** [r[v]] for a table indexed by intensity. *)
Definition at_ (r : list Z) (v : Z) : Z := nth (Z.to_nat v) r 0.

(** One row of the table of a quantizer [q] over the 256 intensities,
    compared with the formula [s], with its own mirror image about [top]
    and at its two ends. *)
Definition row_check (q s : Z -> Z) (top : Z) : bool :=
  let r := map q (PIL.zrange 256) in
  forallb (fun v => (at_ r v =? s v) && (at_ r (255 - v) =? top - at_ r v))
          (PIL.zrange 256)
  && (at_ r 0 =? top) && (at_ r 255 =? 0).

(** The part of a path before and after the last occurrence of [c]. *)
Fixpoint split_last (c : ascii) (s : string) : option (string * string) :=
  match s with
  | EmptyString => None
  | String a rest =>
      match split_last c rest with
      | Some (pre, post) => Some (String a pre, post)
      | None => if Ascii.eqb a c then Some (EmptyString, rest) else None
      end
  end.

(** [PurePosixPath(p).parent] and [.stem] for plain relative paths. *)
Definition posix_parent (p : string) : string :=
  match split_last "/" p with
  | Some (d, _) => if String.eqb d "" then "/" else d
  | None => "."
  end.

Definition posix_stem (p : string) : string :=
  let name := match split_last "/" p with Some (_, n) => n | None => p end in
  match split_last "." name with
  | Some (pre, _) => if String.eqb pre "" then name else pre
  | None => name
  end.

(** A machine without TrueType fonts: every [truetype] call fails and the
    built-in bitmap font, 6 x 11 pixels per glyph, is used. *)
Definition no_truetype (path : string) (size : Z) : result Font :=
  Raise (OSError "cannot open resource").

Definition bitmap_font : Font :=
  mkFont false "" (fun s => (0, 0, 6 * len s, 11)).

Definition empty_world : world := mkWorld (fun _ => None) [].

(** A world that holds the demo picture already (a black 20 x 20 image). *)
Definition demo_world : world :=
  write (write empty_world "examples" Dir)
        "examples/demo.png" (Picture (PIL.L (PIL.solid 20 20 0))).

(** A world in which a regular file has the name of the output
    directory. *)
Definition blocked_world : world := write empty_world "out" (Text []).

(** The two colour names the script uses, as [ImageColor] resolves them. *)
Definition named_colors (name : string) : result (Z * Z * Z) :=
  if String.eqb name "black" then Ok (0, 0, 0)
  else if String.eqb name "white" then Ok (255, 255, 255)
  else Raise (ValueError ("unknown color specifier: " ++ name)).

(** A Pillow whose only image format is PNG, chosen for the extension
    [.png]; its writer takes RGB images. *)
Definition png_only (p : string) : result string :=
  match split_last "." p with
  | Some (_, ext) =>
      if String.eqb ext "png" then Ok "PNG"%string
      else Raise (ValueError ("unknown file extension: ." ++ ext))
  | None => Raise (ValueError "unknown file extension: ")
  end.

Definition rgb_writer (format : string) : result unit := Ok tt.

Definition demo_args : Args :=
  mkArgs (Some "missing.png"%string) 10 false dense float_0_5 None None None 14 true.

(** The output path [main] uses: the one given on the command line, or
    [out/<stem>_<width><ext>]. *)
Definition out_path_of (given : option string) (stem_ : string) (width : Z) (ext : string)
  : string :=
  match given with
  | Some p => if truthy given then p
              else ("out" ++ "/" ++ stem_ ++ "_" ++ str_of_int width ++ ext)%string
  | None => ("out" ++ "/" ++ stem_ ++ "_" ++ str_of_int width ++ ext)%string
  end.

(** The [draw.text] calls of the drawing loop when none of them fails. *)
Fixpoint draw_lines (lines : list str) (y ch : Z) (fg : string)
  : list (Z * Z * str * string) :=
  match lines with
  | [] => []
  | line :: rest => (0, y, line, fg) :: draw_lines rest (y + ch) ch fg
  end.

(** The number of columns of a grid of lines: no line is longer and some
    line is that long. *)
Definition widest (lines : list str) (cols : Z) : Prop :=
  Forall (fun line => len line <= cols) lines /\
  Exists (fun line => len line = cols) lines.

(** A font can draw a text when it is a FreeType font or every character
    of the text is below 256. *)
Definition drawable (font : Font) (line : str) : Prop :=
  is_freetype font = true \/ Forall (fun c => (c < 256)%N) line.

(** A machine with one TrueType font installed, in a local directory;
    like Pillow's loader it refuses a size that is not positive.  The
    contents of the font file do not matter to the script, which only
    asks whether the file exists. *)
Definition mono_ttf (path : string) (size : Z) : result Font :=
  if size <=? 0 then Raise (ValueError "font size must be greater than 0")
  else if String.eqb path "fonts/mono.ttf"
  then Ok (mkFont true path (fun s => (0, 0, (size / 2) * len s, size)))
  else Raise (OSError "cannot open resource").

(** A world with one picture, a black 20 x 20 image. *)
Definition photo_world : world :=
  write empty_world "photo.png" (Picture (PIL.L (PIL.solid 20 20 0))).

Definition font_world : world :=
  write (write photo_world "fonts" Dir) "fonts/mono.ttf" (Text []).


Definition photo_args (width : Z) (font_path : option string) (font_size : Z) : Args :=
  mkArgs (Some "photo.png"%string) width false dense float_0_5 None None font_path
         font_size false.

(** * Properties *)

(** ** Results of [mapM] *)

Lemma mapM_Ok_Forall2 {A B : Type} (f : A -> result B) (l : list A) (bs : list B) :
  mapM f l = Ok bs -> Forall2 (fun a b => f a = Ok b) l bs.
Proof.
  revert bs. induction l as [|a l IH]; intros bs H; simpl in H.
  - inversion H. constructor.
  - destruct (f a) as [b|e] eqn:Ha; [|discriminate].
    destruct (mapM f l) as [bs'|e]; [|discriminate].
    inversion H; subst. constructor; auto.
Qed.

Lemma mapM_Ok_length {A B : Type} (f : A -> result B) (l : list A) (bs : list B) :
  mapM f l = Ok bs -> List.length bs = List.length l.
Proof.
  intros H. apply mapM_Ok_Forall2 in H.
  induction H; simpl; congruence.
Qed.

Lemma mapM_Raise {A B : Type} (f : A -> result B) (l : list A) (e : exn) :
  mapM f l = Raise e -> exists a, In a l /\ f a = Raise e.
Proof.
  induction l as [|a l IH]; simpl; intros H; [discriminate|].
  destruct (f a) as [b|e'] eqn:Ha.
  - destruct (mapM f l) as [bs'|e'']; [discriminate|].
    inversion H; subst. destruct IH as [a' [Hin Ha']]; eauto.
  - inversion H; subst. eauto.
Qed.

Lemma mapM_total {A B : Type} (f : A -> result B) (l : list A) :
  Forall (fun a => exists b, f a = Ok b) l -> exists bs, mapM f l = Ok bs.
Proof.
  induction 1 as [|a l [b Hb] _ [bs Hbs]]; simpl.
  - eauto.
  - rewrite Hb, Hbs. eauto.
Qed.

(** ** Indexing a string *)

Lemma getitem_Ok_In (s : str) (i : Z) (c : char) : getitem s i = Ok c -> In c s.
Proof.
  unfold getitem. destruct (_ || _); [discriminate|].
  destruct (nth_error s _) eqn:Hn; [|discriminate].
  intros H; inversion H; subst. eapply nth_error_In; eauto.
Qed.

Lemma getitem_in_range (s : str) (i : Z) :
  0 <= i < len s -> exists c, getitem s i = Ok c /\ nth_error s (Z.to_nat i) = Some c.
Proof.
  intros Hi. unfold getitem. cbv zeta.
  assert (Hlt : (i <? 0) = false) by (apply Z.ltb_ge; lia). rewrite !Hlt.
  assert (Hle : (len s <=? i) = false) by (apply Z.leb_gt; lia). rewrite Hle. simpl.
  destruct (nth_error s (Z.to_nat i)) as [c|] eqn:Hn.
  - exists c. split; reflexivity.
  - apply nth_error_None in Hn. unfold len in Hi. lia.
Qed.

Lemma getitem_Raise (s : str) (i : Z) (e : exn) :
  getitem s i = Raise e -> e = IndexError "string index out of range".
Proof.
  unfold getitem. destruct (_ || _); [congruence|].
  destruct (nth_error s _); congruence.
Qed.

Lemma len_nonneg {A : Type} (s : list A) : 0 <= len s.
Proof. unfold len. lia. Qed.

Lemma len_pos {A : Type} (s : list A) : s <> [] -> 1 <= len s.
Proof. destruct s; [congruence|]. unfold len. simpl. lia. Qed.

(** ** The index array *)

Lemma clip_range (x hi : Z) : 0 <= hi -> 0 <= Np.clip x 0 hi <= hi.
Proof. unfold Np.clip. lia. Qed.

Lemma amap_amap {A B C : Type} (f : A -> B) (g : B -> C) (a : list (list A)) :
  amap g (amap f a) = amap (fun x => g (f x)) a.
Proof.
  unfold amap. rewrite map_map. apply map_ext. intros row. apply map_map.
Qed.

Lemma palette_indices_quantize (charset : str) (invert : bool) (arr : list (list Z)) :
  palette_indices charset invert arr =
  amap (fun v => quantize (len charset) (if invert then Np.uint8_sub 255 v else v)) arr.
Proof.
  unfold palette_indices. destruct invert; rewrite !amap_amap; reflexivity.
Qed.

Lemma quantize_range (n v : Z) : 1 <= n -> 0 <= quantize n v <= n - 1.
Proof. intros Hn. unfold quantize. apply clip_range. lia. Qed.

Lemma Forall_amap {A B : Type} (f : A -> B) (P : B -> Prop) (a : list (list A)) :
  (forall x, P (f x)) -> Forall (fun row => Forall P row) (amap f a).
Proof.
  intros HP. unfold amap. apply Forall_forall. intros row Hin.
  apply in_map_iff in Hin. destruct Hin as [r [<- _]].
  apply Forall_forall. intros y Hy. apply in_map_iff in Hy.
  destruct Hy as [x [<- _]]. apply HP.
Qed.

Lemma palette_indices_range (charset : str) (invert : bool) (arr : list (list Z)) :
  charset <> [] ->
  Forall (fun row => Forall (fun i => 0 <= i <= len charset - 1) row)
         (palette_indices charset invert arr).
Proof.
  intros Hne. rewrite palette_indices_quantize.
  apply Forall_amap. intros v. apply quantize_range. now apply len_pos.
Qed.

Lemma palette_indices_shape (charset : str) (invert : bool) (arr : list (list Z)) :
  Forall2 (fun row irow => List.length irow = List.length row)
          arr (palette_indices charset invert arr).
Proof.
  rewrite palette_indices_quantize. unfold amap.
  induction arr as [|row arr IH]; simpl; constructor; auto.
  apply length_map.
Qed.

(** ** Building the lines *)

Lemma build_lines_total (charset : str) (idx : list (list Z)) :
  Forall (fun row => Forall (fun i => 0 <= i <= len charset - 1) row) idx ->
  exists lines, build_lines charset idx = Ok lines.
Proof.
  intros H. unfold build_lines. apply mapM_total.
  eapply Forall_impl; [|exact H]. intros row Hrow. apply mapM_total.
  eapply Forall_impl; [|exact Hrow]. intros i Hi. simpl in Hi.
  destruct (getitem_in_range charset i) as [c [Hc _]]; [lia|eauto].
Qed.

Lemma build_lines_shape (charset : str) (idx : list (list Z)) (lines : list str) :
  build_lines charset idx = Ok lines ->
  Forall2 (fun row line => mapM (getitem charset) row = Ok line) idx lines.
Proof. unfold build_lines. apply mapM_Ok_Forall2. Qed.

Lemma build_lines_In (charset : str) (idx : list (list Z)) (lines : list str) :
  build_lines charset idx = Ok lines ->
  Forall (fun line => Forall (fun c => In c charset) line) lines.
Proof.
  intros H. apply build_lines_shape in H.
  induction H as [|row line idx lines Hrow _ IH]; constructor; auto.
  apply mapM_Ok_Forall2 in Hrow.
  induction Hrow as [|i c row line Hi _ IH']; constructor; auto.
  eapply getitem_Ok_In; eauto.
Qed.

Lemma build_lines_Raise (charset : str) (idx : list (list Z)) (e : exn) :
  build_lines charset idx = Raise e -> e = IndexError "string index out of range".
Proof.
  unfold build_lines. intros H.
  apply mapM_Raise in H. destruct H as [row [_ H]].
  apply mapM_Raise in H. destruct H as [i [_ H]].
  eapply getitem_Raise; eauto.
Qed.

(** ** The target size *)

Lemma float_of_int_Raise (z : Z) (e : exn) : float_of_int z = Raise e -> arith_exn e.
Proof.
  unfold float_of_int. destruct (binary_normalize 53 1024 z 0 false); try discriminate.
  intros H; inversion H; exact I.
Qed.

Lemma truediv_Raise (x y : float) (e : exn) : truediv x y = Raise e -> arith_exn e.
Proof.
  unfold truediv. destruct (is_zero y); [|discriminate].
  intros H; inversion H; exact I.
Qed.

Lemma int_Raise (x : float) (e : exn) : int x = Raise e -> arith_exn e.
Proof.
  destruct x; simpl; try discriminate; intros H; inversion H; simpl; auto.
Qed.

Lemma target_size_Raise (size0 : Z * Z) (width : Z) (scale_y : float) (e : exn) :
  target_size size0 width scale_y = Raise e -> arith_exn e.
Proof.
  destruct size0 as [w0 h0]. unfold target_size.
  destruct (float_of_int w0) as [fw0|e0] eqn:H0; simpl;
    [|intros H; inversion H; subst; eapply float_of_int_Raise; eauto].
  destruct (float_of_int width) as [fw|e0] eqn:H1; simpl;
    [|intros H; inversion H; subst; eapply float_of_int_Raise; eauto].
  destruct (truediv fw fw0) as [ratio|e0] eqn:H2; simpl;
    [|intros H; inversion H; subst; eapply truediv_Raise; eauto].
  destruct (float_of_int h0) as [fh0|e0] eqn:H3; simpl;
    [|intros H; inversion H; subst; eapply float_of_int_Raise; eauto].
  destruct (int _) as [k|e0] eqn:H4; simpl;
    [discriminate|intros H; inversion H; subst; eapply int_Raise; eauto].
Qed.

Lemma target_size_Ok (size0 : Z * Z) (width : Z) (scale_y : float) (size1 : Z * Z) :
  target_size size0 width scale_y = Ok size1 -> fst size1 = width /\ 1 <= snd size1.
Proof.
  destruct size0 as [w0 h0]. unfold target_size.
  destruct (float_of_int w0); simpl; [|discriminate].
  destruct (float_of_int width); simpl; [|discriminate].
  destruct (truediv _ _); simpl; [|discriminate].
  destruct (float_of_int h0); simpl; [|discriminate].
  destruct (int _); simpl; [|discriminate].
  intros H; inversion H; subst; simpl. lia.
Qed.

Lemma target_size_steps (w0 h0 width : Z) (scale_y fw0 fw ratio fh0 : float) (k : Z) :
  float_of_int w0 = Ok fw0 -> float_of_int width = Ok fw -> truediv fw fw0 = Ok ratio ->
  float_of_int h0 = Ok fh0 -> int (fmul (fmul fh0 ratio) scale_y) = Ok k ->
  target_size (w0, h0) width scale_y = Ok (width, Z.max 1 k).
Proof.
  intros H0 H1 H2 H3 H4. unfold target_size.
  rewrite H0; simpl. rewrite H1; simpl. rewrite H2; simpl. rewrite H3; simpl.
  rewrite H4; simpl. reflexivity.
Qed.

(** ** The index grid and the lines of the whole conversion *)

Section ConversionFacts.

Variable rgb2l : Z * Z * Z -> Z.
Variable resize : PIL.Gray -> Z * Z -> PIL.Gray.

Lemma index_grid_small (img : PIL.Image) (width : Z) (charset : str) (invert : bool)
    (scale_y : float) :
  width < 10 ->
  index_grid rgb2l resize img width charset invert scale_y = Raise (ValueError width_too_small).
Proof.
  intros H. unfold index_grid.
  assert (Hlt : (width <? 10) = true) by (apply Z.ltb_lt; lia).
  rewrite Hlt. reflexivity.
Qed.

Lemma index_grid_Ok (img : PIL.Image) (width : Z) (charset : str) (invert : bool)
    (scale_y : float) (size1 : Z * Z) :
  10 <= width ->
  target_size (PIL.gsize (convert_L rgb2l img)) width scale_y = Ok size1 ->
  index_grid rgb2l resize img width charset invert scale_y =
  Ok (palette_indices charset invert (PIL.gdata (resize (convert_L rgb2l img) size1))).
Proof.
  intros H Hs. unfold index_grid.
  assert (Hlt : (width <? 10) = false) by (apply Z.ltb_ge; lia).
  rewrite Hlt, Hs. reflexivity.
Qed.

Lemma index_grid_inv (img : PIL.Image) (width : Z) (charset : str) (invert : bool)
    (scale_y : float) (idx : list (list Z)) :
  index_grid rgb2l resize img width charset invert scale_y = Ok idx ->
  10 <= width /\
  exists size1,
    target_size (PIL.gsize (convert_L rgb2l img)) width scale_y = Ok size1 /\
    idx = palette_indices charset invert (PIL.gdata (resize (convert_L rgb2l img) size1)).
Proof.
  unfold index_grid. destruct (width <? 10) eqn:Hlt; [discriminate|].
  apply Z.ltb_ge in Hlt.
  destruct (target_size _ _ _) as [size1|e]; simpl; [|discriminate].
  intros H; inversion H; subst. split; [lia|]. exists size1. auto.
Qed.

Lemma index_grid_Raise (img : PIL.Image) (width : Z) (charset : str) (invert : bool)
    (scale_y : float) (e : exn) :
  index_grid rgb2l resize img width charset invert scale_y = Raise e ->
  (width < 10 /\ e = ValueError width_too_small) \/ (10 <= width /\ arith_exn e).
Proof.
  unfold index_grid. destruct (width <? 10) eqn:Hlt.
  - apply Z.ltb_lt in Hlt. intros H; inversion H; subst. left. split; [lia|reflexivity].
  - apply Z.ltb_ge in Hlt.
    destruct (target_size _ _ _) as [size1|e0] eqn:Hs; simpl; [discriminate|].
    intros H; inversion H; subst. right. split; [lia|].
    eapply target_size_Raise; eauto.
Qed.

(** With a resize that meets its contract, the conversion of a source
    grid returns one line per row of the target size, each as long as
    the target width. *)
Lemma lines_shape (g : PIL.Gray) (width : Z) (charset : str) (invert : bool)
    (scale_y : float) (w1 h1 : Z) :
  PIL.resize_contract resize -> PIL.source_grid g -> 10 <= width -> charset <> [] ->
  target_size (PIL.gsize g) width scale_y = Ok (w1, h1) ->
  exists lines,
    image_to_ascii_lines rgb2l resize (PIL.L g) width charset invert scale_y = Ok lines /\
    build_lines charset
      (palette_indices charset invert (PIL.gdata (resize g (w1, h1)))) = Ok lines /\
    List.length lines = Z.to_nat h1 /\
    Forall (fun line => List.length line = Z.to_nat w1) lines.
Proof.
  intros Hres Hg Hw Hne Hs.
  destruct (target_size_Ok _ _ _ _ Hs) as [Hw1 Hh1]. simpl in Hw1, Hh1.
  destruct (Hres g w1 h1 Hg) as [Hsz Hwf]; [lia|lia|].
  set (arr := PIL.gdata (resize g (w1, h1))) in *.
  destruct (build_lines_total charset (palette_indices charset invert arr)) as [lines Hl].
  { now apply palette_indices_range. }
  exists lines. split; [|split; [exact Hl|]].
  - unfold image_to_ascii_lines.
    rewrite (index_grid_Ok (PIL.L g) width charset invert scale_y (w1, h1) Hw Hs).
    simpl. exact Hl.
  - destruct Hwf as [_ [_ [Hrows Hcols]]]. rewrite Hsz in Hrows, Hcols. simpl in Hrows, Hcols.
    fold arr in Hrows, Hcols.
    pose proof (palette_indices_shape charset invert arr) as Hshape.
    apply build_lines_shape in Hl.
    split.
    + rewrite <- Hrows. apply Forall2_length in Hshape. apply Forall2_length in Hl.
      now rewrite Hshape, Hl.
    + clear Hrows. revert Hshape Hl Hcols.
      generalize (palette_indices charset invert arr) as idx. revert lines.
      induction arr as [|row arr IH]; intros lines idx Hshape Hl Hcols.
      * inversion Hshape; subst. inversion Hl; subst. constructor.
      * inversion Hshape as [|? irow ? idx' Hrow Hshape']; subst.
        inversion Hl as [|? line ? lines' Hline Hl']; subst.
        inversion Hcols as [|? ? [Hlen _] Hcols']; subst.
        constructor; [|eapply IH; eauto].
        apply mapM_Ok_length in Hline. congruence.
Qed.

End ConversionFacts.

(** ** Nearest-neighbour resampling meets the resize contracts *)

Lemma zrange_length (n : Z) : List.length (PIL.zrange n) = Z.to_nat n.
Proof. unfold PIL.zrange. now rewrite length_map, length_seq. Qed.

Lemma zrange_In (n x : Z) : In x (PIL.zrange n) -> 0 <= x < n.
Proof.
  unfold PIL.zrange. intros H. apply in_map_iff in H.
  destruct H as [k [<- Hk]]. apply in_seq in Hk. lia.
Qed.

Lemma getpixel_uint8 (g : PIL.Gray) (x y : Z) : PIL.wf g -> PIL.is_uint8 (PIL.getpixel g x y).
Proof.
  intros [_ [_ [_ Hrows]]]. unfold PIL.getpixel.
  destruct (nth_in_or_default (Z.to_nat y) (PIL.gdata g) []) as [Hin|Hd].
  - rewrite Forall_forall in Hrows. destruct (Hrows _ Hin) as [_ Hrow].
    destruct (nth_in_or_default (Z.to_nat x) (nth (Z.to_nat y) (PIL.gdata g) []) 0)
      as [Hin'|Hd'].
    + rewrite Forall_forall in Hrow. auto.
    + rewrite Hd'. unfold PIL.is_uint8. lia.
  - rewrite Hd. destruct (Z.to_nat x); simpl; unfold PIL.is_uint8; lia.
Qed.

Lemma getpixel_uniform (g : PIL.Gray) (v x y : Z) :
  PIL.wf g -> PIL.uniform g v ->
  0 <= x < fst (PIL.gsize g) -> 0 <= y < snd (PIL.gsize g) ->
  PIL.getpixel g x y = v.
Proof.
  intros [_ [_ [Hlen Hrows]]] Hu Hx Hy. unfold PIL.getpixel.
  assert (Hin : In (nth (Z.to_nat y) (PIL.gdata g) []) (PIL.gdata g)).
  { apply nth_In. lia. }
  unfold PIL.uniform in Hu. rewrite Forall_forall in Hrows, Hu.
  destruct (Hrows _ Hin) as [Hrow _]. specialize (Hu _ Hin).
  rewrite Forall_forall in Hu. apply Hu. apply nth_In. lia.
Qed.

Lemma scaled_index_range (x n n0 : Z) : 0 <= x < n -> 0 < n0 -> 0 <= x * n0 / n < n0.
Proof.
  intros Hx Hn0. split.
  - apply Z.div_pos; nia.
  - apply Z.div_lt_upper_bound; nia.
Qed.

Lemma resize_nearest_contract : PIL.resize_contract PIL.resize_nearest.
Proof.
  intros g w h [Hwf _] Hw Hh. unfold PIL.resize_nearest.
  destruct (PIL.gsize g) as [w0 h0] eqn:Hsz. split; [reflexivity|].
  unfold PIL.wf. simpl. repeat split; try lia.
  - now rewrite length_map, zrange_length.
  - apply Forall_forall. intros row Hin. apply in_map_iff in Hin.
    destruct Hin as [y [<- _]]. split.
    + now rewrite length_map, zrange_length.
    + apply Forall_forall. intros p Hp. apply in_map_iff in Hp.
      destruct Hp as [x [<- _]]. now apply getpixel_uint8.
Qed.

Lemma resize_nearest_constant : PIL.resize_constant PIL.resize_nearest.
Proof.
  intros g v w h [Hwf [Hw0 Hh0]] Hw Hh Hu. unfold PIL.resize_nearest, PIL.uniform.
  destruct (PIL.gsize g) as [w0 h0] eqn:Hsz. simpl in *.
  apply Forall_forall. intros row Hin. apply in_map_iff in Hin.
  destruct Hin as [y [<- Hy]]. apply zrange_In in Hy.
  apply Forall_forall. intros p Hp. apply in_map_iff in Hp.
  destruct Hp as [x [<- Hx]]. apply zrange_In in Hx.
  apply getpixel_uniform; auto; rewrite Hsz; simpl; now apply scaled_index_range.
Qed.

Lemma solid_source_grid (w h v : Z) :
  0 < w -> 0 < h -> PIL.is_uint8 v -> PIL.source_grid (PIL.solid w h v).
Proof.
  intros Hw Hh Hv. unfold PIL.source_grid, PIL.wf, PIL.solid. simpl.
  repeat split; try lia.
  - apply repeat_length.
  - apply Forall_forall. intros row Hin. apply repeat_spec in Hin. subst row. split.
    + apply repeat_length.
    + apply Forall_forall. intros x Hx. apply repeat_spec in Hx. now subst x.
Qed.

Lemma solid_uniform (w h v : Z) : PIL.uniform (PIL.solid w h v) v.
Proof.
  unfold PIL.uniform, PIL.solid. simpl.
  apply Forall_forall. intros row Hin. apply repeat_spec in Hin. subst row.
  apply Forall_forall. intros x Hx. now apply repeat_spec in Hx.
Qed.

(** ** Claims *)

(** C5: for every target width below the minimum (10 in the script, so 5
    is below it) the conversion raises the "width is too small"
    [ValueError] instead of producing output; for every width at or above
    the minimum it does not raise this error. *)
Theorem width_below_minimum_raises (rgb2l : Z * Z * Z -> Z)
    (resize : PIL.Gray -> Z * Z -> PIL.Gray) (img : PIL.Image) (width : Z)
    (charset : str) (invert : bool) (scale_y : float) :
  (width < 10 ->
   image_to_ascii_lines rgb2l resize img width charset invert scale_y
   = Raise (ValueError width_too_small)) /\
  (10 <= width ->
   image_to_ascii_lines rgb2l resize img width charset invert scale_y
   <> Raise (ValueError width_too_small)).
Proof.
  split; intros Hw; unfold image_to_ascii_lines.
  - rewrite index_grid_small by exact Hw. reflexivity.
  - destruct (index_grid _ _ _ _ _ _ _) as [idx|e] eqn:Hidx; simpl.
    + destruct (build_lines charset idx) as [lines|e] eqn:Hl; [discriminate|].
      apply build_lines_Raise in Hl. subst e. discriminate.
    + apply index_grid_Raise in Hidx. destruct Hidx as [[Hlt _]|[_ Hexn]]; [lia|].
      intros Heq. inversion Heq; subst e. simpl in Hexn. discriminate.
Qed.

Lemma width_below_minimum_raises_witness :
  image_to_ascii_lines luma PIL.resize_nearest (PIL.L (PIL.solid 20 20 0)) 5
    (CHARSETS dense) false float_0_5 = Raise (ValueError width_too_small) /\
  image_to_ascii_lines luma PIL.resize_nearest (PIL.L (PIL.solid 20 20 0)) 10
    (CHARSETS dense) false float_0_5 <> Raise (ValueError width_too_small).
Proof.
  split.
  - apply (proj1 (width_below_minimum_raises luma PIL.resize_nearest
                    (PIL.L (PIL.solid 20 20 0)) 5 (CHARSETS dense) false float_0_5)). lia.
  - apply (proj2 (width_below_minimum_raises luma PIL.resize_nearest
                    (PIL.L (PIL.solid 20 20 0)) 10 (CHARSETS dense) false float_0_5)). lia.
Defined.

Lemma CHARSETS_nonempty (name : charset_name) : CHARSETS name <> [].
Proof. destruct name; discriminate. Qed.

(** C9: for every input image, width, scale factor, invert flag and every
    palette of the configured presets, the computed indices lie in
    [0, N-1], so the lookup never raises [IndexError] and every character
    of every output line is a member of the palette. *)
Theorem output_chars_in_palette (rgb2l : Z * Z * Z -> Z)
    (resize : PIL.Gray -> Z * Z -> PIL.Gray) (img : PIL.Image) (width : Z)
    (name : charset_name) (invert : bool) (scale_y : float) :
  match index_grid rgb2l resize img width (CHARSETS name) invert scale_y with
  | Ok idx =>
      Forall (fun row => Forall (fun i => 0 <= i <= len (CHARSETS name) - 1) row) idx /\
      exists lines,
        image_to_ascii_lines rgb2l resize img width (CHARSETS name) invert scale_y = Ok lines /\
        Forall (fun line => Forall (fun c => In c (CHARSETS name)) line) lines
  | Raise e =>
      image_to_ascii_lines rgb2l resize img width (CHARSETS name) invert scale_y = Raise e /\
      forall msg, e <> IndexError msg
  end.
Proof.
  unfold image_to_ascii_lines.
  destruct (index_grid _ _ _ _ _ _ _) as [idx|e] eqn:Hidx; simpl.
  - apply index_grid_inv in Hidx. destruct Hidx as [_ [size1 [_ ->]]].
    pose proof (palette_indices_range (CHARSETS name) invert
                  (PIL.gdata (resize (convert_L rgb2l img) size1))
                  (CHARSETS_nonempty name)) as Hrange.
    split; [exact Hrange|].
    destruct (build_lines_total _ _ Hrange) as [lines Hl].
    exists lines. split; [exact Hl|]. eapply build_lines_In; eauto.
  - split; [reflexivity|]. intros msg Heq. subst e.
    apply index_grid_Raise in Hidx. destruct Hidx as [[_ Habs]|[_ Habs]].
    + discriminate.
    + exact Habs.
Qed.

(** C10: for every source grid and every scale factor at which the target
    size is computed (in particular every positive, finite one whose
    product with the height stays finite), the conversion returns at
    least one row; when the scaled height truncates to zero or below, it
    returns exactly one. *)
Theorem at_least_one_row (rgb2l : Z * Z * Z -> Z)
    (resize : PIL.Gray -> Z * Z -> PIL.Gray) (g : PIL.Gray) (width : Z)
    (charset : str) (invert : bool) (scale_y fw0 fw ratio fh0 : float) (k : Z) :
  PIL.resize_contract resize -> PIL.source_grid g -> 10 <= width -> charset <> [] ->
  float_of_int (fst (PIL.gsize g)) = Ok fw0 -> float_of_int width = Ok fw ->
  truediv fw fw0 = Ok ratio -> float_of_int (snd (PIL.gsize g)) = Ok fh0 ->
  int (fmul (fmul fh0 ratio) scale_y) = Ok k ->
  exists lines,
    image_to_ascii_lines rgb2l resize (PIL.L g) width charset invert scale_y = Ok lines /\
    1 <= len lines /\
    (k <= 0 -> len lines = 1).
Proof.
  intros Hres Hg Hw Hne H0 H1 H2 H3 H4.
  destruct (PIL.gsize g) as [w0 h0] eqn:Hsz. simpl in H0, H3.
  pose proof (target_size_steps w0 h0 width scale_y fw0 fw ratio fh0 k H0 H1 H2 H3 H4) as Hs.
  rewrite <- Hsz in Hs.
  destruct (lines_shape rgb2l resize g width charset invert scale_y width (Z.max 1 k)
              Hres Hg Hw Hne Hs) as [lines [Hl [_ [Hrows _]]]].
  exists lines. split; [exact Hl|]. unfold len. rewrite Hrows. lia.
Qed.

Lemma at_least_one_row_witness :
  exists lines,
    image_to_ascii_lines luma PIL.resize_nearest (PIL.L (PIL.solid 100 1 0)) 10
      (CHARSETS dense) false float_0_5 = Ok lines /\
    1 <= len lines /\ (0 <= 0 -> len lines = 1).
Proof.
  apply (at_least_one_row luma PIL.resize_nearest (PIL.solid 100 1 0) 10 (CHARSETS dense)
           false float_0_5
           (S754_finite false 7036874417766400 (-46))
           (S754_finite false 5629499534213120 (-49))
           (S754_finite false 7205759403792794 (-56))
           (S754_finite false 4503599627370496 (-52)) 0).
  - exact resize_nearest_contract.
  - apply solid_source_grid; unfold PIL.is_uint8; lia.
  - lia.
  - discriminate.
  - vm_compute. reflexivity.
  - vm_compute. reflexivity.
  - vm_compute. reflexivity.
  - vm_compute. reflexivity.
  - vm_compute. reflexivity.
Defined.

(** C1, as the script computes it: for every source grid, every target
    width at or above the minimum and every scale factor at which the
    size arithmetic succeeds, the character grid has exactly W columns and
    max(1, trunc(H0 * (W / W0) * s)) rows, the product being evaluated in
    double precision and truncated toward zero (not rounded). *)
Theorem resampled_grid_size (rgb2l : Z * Z * Z -> Z)
    (resize : PIL.Gray -> Z * Z -> PIL.Gray) (g : PIL.Gray) (width : Z)
    (charset : str) (invert : bool) (scale_y fw0 fw ratio fh0 : float) (k : Z) :
  PIL.resize_contract resize -> PIL.source_grid g -> 10 <= width -> charset <> [] ->
  float_of_int (fst (PIL.gsize g)) = Ok fw0 -> float_of_int width = Ok fw ->
  truediv fw fw0 = Ok ratio -> float_of_int (snd (PIL.gsize g)) = Ok fh0 ->
  int (fmul (fmul fh0 ratio) scale_y) = Ok k ->
  exists lines,
    image_to_ascii_lines rgb2l resize (PIL.L g) width charset invert scale_y = Ok lines /\
    len lines = Z.max 1 k /\
    Forall (fun line => len line = width) lines.
Proof.
  intros Hres Hg Hw Hne H0 H1 H2 H3 H4.
  destruct (PIL.gsize g) as [w0 h0] eqn:Hsz. simpl in H0, H3.
  pose proof (target_size_steps w0 h0 width scale_y fw0 fw ratio fh0 k H0 H1 H2 H3 H4) as Hs.
  rewrite <- Hsz in Hs.
  destruct (lines_shape rgb2l resize g width charset invert scale_y width (Z.max 1 k)
              Hres Hg Hw Hne Hs) as [lines [Hl [_ [Hrows Hcols]]]].
  exists lines. split; [exact Hl|]. split.
  - unfold len. rewrite Hrows. lia.
  - eapply Forall_impl; [|exact Hcols]. intros line Hlen. simpl in Hlen.
    unfold len. rewrite Hlen. lia.
Qed.

Lemma resampled_grid_size_witness :
  exists lines,
    image_to_ascii_lines luma PIL.resize_nearest (PIL.L (PIL.solid 10 7 0)) 10
      (CHARSETS dense) false float_0_25 = Ok lines /\
    len lines = Z.max 1 1 /\
    Forall (fun line => len line = 10) lines.
Proof.
  apply (resampled_grid_size luma PIL.resize_nearest (PIL.solid 10 7 0) 10 (CHARSETS dense)
           false float_0_25
           (S754_finite false 5629499534213120 (-49))
           (S754_finite false 5629499534213120 (-49))
           (S754_finite false 4503599627370496 (-52))
           (S754_finite false 7881299347898368 (-50)) 1).
  - exact resize_nearest_contract.
  - apply solid_source_grid; unfold PIL.is_uint8; lia.
  - lia.
  - discriminate.
  - vm_compute. reflexivity.
  - vm_compute. reflexivity.
  - vm_compute. reflexivity.
  - vm_compute. reflexivity.
  - vm_compute. reflexivity.
Defined.

(** C1 as the specification states it fails: a 10 x 7 grid converted at
    width 10 with scale factor 0.25 gives one row (1.75 truncated), where
    round(7 * (10 / 10) * 0.25) is 2. *)
Lemma rows_truncated_not_rounded :
  exists lines,
    image_to_ascii_lines luma PIL.resize_nearest (PIL.L (PIL.solid 10 7 0)) 10
      (CHARSETS dense) false float_0_25 = Ok lines /\
    len lines = 1 /\
    spec_rows 10 7 10 (Q_of_float float_0_25) = 2 /\
    len lines <> spec_rows 10 7 10 (Q_of_float float_0_25).
Proof.
  eexists. split; [vm_compute; reflexivity|].
  split; [reflexivity|]. split; [reflexivity|]. vm_compute. discriminate.
Qed.

(** The product is a double, not a rational: for a 490 x 98 source at
    width 10 and scale factor 1.0 the ratio 10/490 is rounded, the product
    is just below 2 and one row comes out, where exact arithmetic gives
    98 * (10 / 490) = 2. *)
Remark target_height_is_computed_in_double_precision :
  target_size (490, 98) 10 float_1_0 = Ok (10, 1) /\
  Qfloor (inject_Z 98 * (inject_Z 10 / inject_Z 490) * Q_of_float float_1_0) = 2.
Proof. split; vm_compute; reflexivity. Qed.

(** ** Uniform grids *)

Lemma amap_uniform {A B : Type} (f : A -> B) (a : list (list A)) (v : A) :
  Forall (fun row => Forall (fun x => x = v) row) a ->
  Forall (fun row => Forall (fun y => y = f v) row) (amap f a).
Proof.
  intros H. unfold amap. apply Forall_forall. intros row Hin.
  apply in_map_iff in Hin. destruct Hin as [r [<- Hr]].
  rewrite Forall_forall in H. specialize (H _ Hr). rewrite Forall_forall in H.
  apply Forall_forall. intros y Hy. apply in_map_iff in Hy.
  destruct Hy as [x [<- Hx]]. now rewrite (H _ Hx).
Qed.

Lemma build_lines_uniform (charset : str) (idx : list (list Z)) (lines : list str)
    (i0 : Z) (c : char) :
  Forall (fun row => Forall (fun i => i = i0) row) idx ->
  getitem charset i0 = Ok c ->
  build_lines charset idx = Ok lines ->
  Forall (fun line => Forall (fun x => x = c) line) lines.
Proof.
  intros Hu Hc Hl. apply build_lines_shape in Hl.
  induction Hl as [|row line idx lines Hrow _ IH]; [constructor|].
  inversion Hu as [|? ? Hrow0 Hu']; subst. constructor; [|auto].
  apply mapM_Ok_Forall2 in Hrow. clear IH Hu Hu'.
  induction Hrow as [|i x row line Hi _ IH]; [constructor|].
  inversion Hrow0 as [|? ? Hi0 Hrow0']; subst. constructor; [congruence|auto].
Qed.

Section UniformFacts.

Variable rgb2l : Z * Z * Z -> Z.
Variable resize : PIL.Gray -> Z * Z -> PIL.Gray.

(** A uniform source grid of intensity [v] is converted to lines that
    repeat the one character the palette holds at the index of [v]. *)
Lemma uniform_lines (g : PIL.Gray) (v width : Z) (charset : str) (invert : bool)
    (scale_y : float) (size1 : Z * Z) :
  PIL.resize_contract resize -> PIL.resize_constant resize ->
  PIL.source_grid g -> PIL.uniform g v -> 10 <= width -> charset <> [] ->
  target_size (PIL.gsize g) width scale_y = Ok size1 ->
  exists lines c,
    image_to_ascii_lines rgb2l resize (PIL.L g) width charset invert scale_y = Ok lines /\
    getitem charset
      (quantize (len charset) (if invert then Np.uint8_sub 255 v else v)) = Ok c /\
    Forall (fun line => Forall (fun x => x = c) line) lines /\
    List.length lines = Z.to_nat (snd size1) /\
    Forall (fun line => List.length line = Z.to_nat (fst size1)) lines.
Proof.
  intros Hres Hconst Hg Hu Hw Hne Hs. destruct size1 as [w1 h1].
  destruct (target_size_Ok _ _ _ _ Hs) as [Hw1 Hh1]. simpl in Hw1, Hh1.
  destruct (lines_shape rgb2l resize g width charset invert scale_y w1 h1
              Hres Hg Hw Hne Hs) as [lines [Hl [Hb [Hrows Hcols]]]].
  set (i0 := quantize (len charset) (if invert then Np.uint8_sub 255 v else v)).
  destruct (getitem_in_range charset i0) as [c [Hc _]].
  { pose proof (quantize_range (len charset)
                  (if invert then Np.uint8_sub 255 v else v) (len_pos charset Hne)).
    fold i0 in H. lia. }
  exists lines, c. repeat split; auto.
  eapply build_lines_uniform; [|exact Hc|exact Hb].
  rewrite palette_indices_quantize.
  apply (amap_uniform
           (fun x => quantize (len charset) (if invert then Np.uint8_sub 255 x else x))).
  apply Hconst; auto; lia.
Qed.

End UniformFacts.

(** C6: for every uniform-intensity source grid, the conversion yields a
    character grid (with at least one row of [width] characters) in which
    every position holds the same single character of the palette. *)
Theorem uniform_grid_single_character (rgb2l : Z * Z * Z -> Z)
    (resize : PIL.Gray -> Z * Z -> PIL.Gray) (g : PIL.Gray) (v width : Z)
    (charset : str) (invert : bool) (scale_y : float) (size1 : Z * Z) :
  PIL.resize_contract resize -> PIL.resize_constant resize ->
  PIL.source_grid g -> PIL.uniform g v -> 10 <= width -> charset <> [] ->
  target_size (PIL.gsize g) width scale_y = Ok size1 ->
  exists lines c,
    image_to_ascii_lines rgb2l resize (PIL.L g) width charset invert scale_y = Ok lines /\
    In c charset /\
    Forall (fun line => Forall (fun x => x = c) line) lines /\
    1 <= len lines /\
    Forall (fun line => len line = width) lines.
Proof.
  intros Hres Hconst Hg Hu Hw Hne Hs.
  destruct (uniform_lines rgb2l resize g v width charset invert scale_y size1
              Hres Hconst Hg Hu Hw Hne Hs) as [lines [c [Hl [Hc [Hall [Hrows Hcols]]]]]].
  destruct (target_size_Ok _ _ _ _ Hs) as [Hw1 Hh1].
  exists lines, c. split; [exact Hl|]. split; [eapply getitem_Ok_In; eauto|].
  split; [exact Hall|]. split.
  - unfold len. rewrite Hrows. lia.
  - eapply Forall_impl; [|exact Hcols]. intros line Hlen. simpl in Hlen.
    unfold len. rewrite Hlen, Hw1. lia.
Qed.

Lemma uniform_grid_single_character_witness :
  exists lines c,
    image_to_ascii_lines luma PIL.resize_nearest (PIL.L (PIL.solid 20 20 128)) 10
      (CHARSETS dense) false float_0_5 = Ok lines /\
    In c (CHARSETS dense) /\
    Forall (fun line => Forall (fun x => x = c) line) lines /\
    1 <= len lines /\
    Forall (fun line => len line = 10) lines.
Proof.
  apply (uniform_grid_single_character luma PIL.resize_nearest (PIL.solid 20 20 128) 128 10
           (CHARSETS dense) false float_0_5 (10, 5)).
  - exact resize_nearest_contract.
  - exact resize_nearest_constant.
  - apply solid_source_grid; unfold PIL.is_uint8; lia.
  - apply solid_uniform.
  - lia.
  - discriminate.
  - vm_compute. reflexivity.
Defined.

(** ** The quantizer against the formula of the specification *)

(** The table of [quantize n] agrees with [spec_index n] for the palettes
    of 1 to 256 characters (at most one per intensity level). *)
Lemma quantize_table :
  forallb (fun k => row_check (quantize (k + 1)) (spec_index (k + 1)) k) (PIL.zrange 256)
  = true.
Proof. vm_cast_no_check (eq_refl true). Qed.

Lemma zrange_In_iff (n x : Z) : In x (PIL.zrange n) <-> 0 <= x < n.
Proof.
  split; [apply zrange_In|]. intros Hx. unfold PIL.zrange.
  apply in_map_iff. exists (Z.to_nat x). split; [lia|]. apply in_seq. lia.
Qed.

Lemma at_map_zrange (q : Z -> Z) (n v : Z) :
  0 <= v < n -> at_ (map q (PIL.zrange n)) v = q v.
Proof.
  intros Hv. unfold at_, PIL.zrange. rewrite map_map.
  rewrite (nth_indep _ 0 (q (Z.of_nat 0))) by (rewrite length_map, length_seq; lia).
  rewrite (map_nth (fun k => q (Z.of_nat k))).
  rewrite seq_nth by lia. f_equal. lia.
Qed.

Lemma row_check_sound (q s : Z -> Z) (top v : Z) :
  row_check q s top = true -> 0 <= v <= 255 ->
  q v = s v /\ q (255 - v) = top - q v /\ q 0 = top /\ q 255 = 0.
Proof.
  unfold row_check. intros Hrow Hv.
  apply andb_prop in Hrow. destruct Hrow as [Hrow H255].
  apply andb_prop in Hrow. destruct Hrow as [Hall H0].
  rewrite forallb_forall in Hall.
  assert (Hin : In v (PIL.zrange 256)) by (apply zrange_In_iff; lia).
  specialize (Hall v Hin). apply andb_prop in Hall. destruct Hall as [Hs Hm].
  apply Z.eqb_eq in Hs, Hm, H0, H255.
  assert (E1 : 0 <= v < 256) by lia.
  pose proof (at_map_zrange q 256 v E1) as Ev.
  rewrite Ev in Hs.
  rewrite Ev in Hm.
  assert (E2 : 0 <= 255 - v < 256) by lia.
  pose proof (at_map_zrange q 256 (255 - v) E2) as Em.
  rewrite Em in Hm.
  assert (E3 : 0 <= 0 < 256) by lia.
  pose proof (at_map_zrange q 256 0 E3) as E0.
  rewrite E0 in H0.
  assert (E4 : 0 <= 255 < 256) by lia.
  pose proof (at_map_zrange q 256 255 E4) as E255.
  rewrite E255 in H255.
  repeat split; assumption.
Qed.

Lemma quantize_checked (n v : Z) :
  1 <= n <= 256 -> 0 <= v <= 255 ->
  quantize n v = spec_index n v /\
  quantize n (255 - v) = n - 1 - quantize n v /\
  quantize n 0 = n - 1 /\
  quantize n 255 = 0.
Proof.
  intros Hn Hv. pose proof quantize_table as Ht.
 rewrite forallb_forall in Ht.
 assert (Hin : In (n - 1) (PIL.zrange 256)) by (apply zrange_In_iff; lia).
 pose proof (Ht (n - 1) Hin) as Hrow. cbv beta in Hrow.
 pose proof (row_check_sound _ _ _ v Hrow Hv) as H.
 replace (n - 1 + 1) with n in H by lia.
 exact H.
Qed.

(** ** Palette indices, inversion and the black grid *)













(** ** Files and directories *)

Section FileFacts.

Variable parent : string -> string.

Lemma lookup_write_same (w : world) (p : string) (f : file) :
  lookup parent w p <> Some Dir -> lookup parent (write w p f) p = Some f.
Proof.
  unfold lookup, write. destruct (String.eqb (parent p) p); [congruence|].
  intros _. cbn [fs]. now rewrite String.eqb_refl.
Qed.

Lemma lookup_write_other (w : world) (p q : string) (f : file) :
  q <> p -> lookup parent (write w p f) q = lookup parent w q.
Proof.
  intros Hne. unfold lookup, write. cbn [fs].
  apply String.eqb_neq in Hne. now rewrite Hne.
Qed.

Lemma exists_lookup (w : world) (p : string) (f : file) :
  lookup parent w p = Some f -> exists_ parent w p = true.
Proof. unfold exists_. now intros ->. Qed.

(** [mkdir] prints nothing and leaves what there is where it is. *)
Lemma mkdir_parents_keeps (fuel : nat) (w w' : world) (p : string) (r : result unit) :
  mkdir_parents parent fuel w p = (w', r) ->
  stdout w' = stdout w /\
  forall q f, lookup parent w q = Some f -> lookup parent w' q = Some f.
Proof.
  revert w w' p r. induction fuel as [|fuel IH]; intros w w' p r; cbn [mkdir_parents];
    destruct (lookup parent w p) as [[| | |]|] eqn:Hp;
    try (intros H; inversion H; subst; now split);
    destruct (lookup parent w (parent p)) as [[| | |]|] eqn:Hpp;
    try (intros H; inversion H; subst; now split).
  - intros H; inversion H; subst. split; [reflexivity|]. intros q f Hq.
    rewrite lookup_write_other; [exact Hq|]. intros ->. congruence.
  - intros H; inversion H; subst. split; [reflexivity|]. intros q f Hq.
    rewrite lookup_write_other; [exact Hq|]. intros ->. congruence.
  - destruct (mkdir_parents parent fuel w (parent p)) as [w1 [u|e]] eqn:Hrec;
      destruct (IH _ _ _ _ Hrec) as [Hout Hkeep];
      intros H; inversion H; subst.
    + split; [exact Hout|]. intros q f Hq.
      rewrite lookup_write_other; [now apply Hkeep|]. intros ->. congruence.
    + split; [exact Hout|exact Hkeep].
Qed.

(** After a [mkdir] that returns, the path is a directory. *)
Lemma mkdir_parents_Dir (fuel : nat) (w w' : world) (p : string) :
  mkdir_parents parent fuel w p = (w', Ok tt) -> lookup parent w' p = Some Dir.
Proof.
  assert (Hnew : forall w0, lookup parent w p = None ->
                            lookup parent (write w0 p Dir) p = Some Dir).
  { intros w0. unfold lookup, write. destruct (String.eqb (parent p) p); [reflexivity|].
    intros _. cbn [fs]. now rewrite String.eqb_refl. }
  destruct fuel as [|fuel]; cbn [mkdir_parents];
    destruct (lookup parent w p) as [[| | |]|] eqn:Hp;
    try (intros H; inversion H; subst; assumption);
    try discriminate;
    destruct (lookup parent w (parent p)) as [[| | |]|] eqn:Hpp;
    try discriminate;
    try (intros H; inversion H; subst; now apply Hnew).
  destruct (mkdir_parents parent fuel w (parent p)) as [w1 [u|e]];
    intros H; inversion H; subst. now apply Hnew.
Qed.

Lemma mkdir_keeps (w w' : world) (p : string) (r : result unit) :
  mkdir parent w p = (w', r) ->
  stdout w' = stdout w /\
  forall q f, lookup parent w q = Some f -> lookup parent w' q = Some f.
Proof. apply mkdir_parents_keeps. Qed.

Lemma mkdir_Dir (w w' : world) (p : string) :
  mkdir parent w p = (w', Ok tt) -> lookup parent w' p = Some Dir.
Proof. apply mkdir_parents_Dir. Qed.

(** A regular file in the place of the directory makes [mkdir] raise. *)
Lemma mkdir_file_exists (w : world) (p : string) (f : file) :
  lookup parent w p = Some f -> f <> Dir ->
  mkdir parent w p = (w, Raise (OSError "File exists")).
Proof.
  intros Hp Hf. unfold mkdir.
  destruct (String.length p); cbn [mkdir_parents]; rewrite Hp;
    destruct f; congruence.
Qed.

End FileFacts.

(** ** Encoding *)

Lemma encode_error_None (ok : char -> bool) (s : str) (pos : Z) :
  Forall (fun c => ok c = true) s -> encode_error ok s pos = None.
Proof.
  intros H. revert pos. induction H as [|c s Hc _ IH]; intros pos; cbn [encode_error];
    [reflexivity|]. rewrite Hc. apply IH.
Qed.

Lemma encode_error_Some (ok : char -> bool) (s : str) (pos : Z) :
  Exists (fun c => ok c = false) s -> exists start stop, encode_error ok s pos = Some (start, stop).
Proof.
  intros H. revert pos. induction H as [c s Hc|c s _ IH]; intros pos; cbn [encode_error].
  - rewrite Hc. eauto.
  - destruct (ok c); [apply IH|eauto].
Qed.

Lemma draw_text_Ok (font : Font) (line : str) :
  drawable font line -> draw_text font line = Ok tt.
Proof.
  intros [Hft|Hlat]; unfold draw_text.
  - now rewrite Hft.
  - destruct (is_freetype font); [reflexivity|].
    rewrite encode_error_None; [reflexivity|].
    eapply Forall_impl; [|exact Hlat]. intros c Hc. now apply N.ltb_lt.
Qed.

Lemma preset_is_utf8 (name : charset_name) :
  Forall (fun c => is_utf8 c = true) (CHARSETS name).
Proof. destruct name; repeat constructor. Qed.

Lemma join_lines_Forall (P : char -> Prop) (lines : list str) :
  P 10%N -> Forall (fun line => Forall P line) lines -> Forall P (join_lines lines).
Proof.
  intros Hnl H. induction H as [|line rest Hline _ IH]; [constructor|].
  destruct rest as [|line' rest']; [exact Hline|].
  change (join_lines (line :: line' :: rest')) with (line ++ 10%N :: join_lines (line' :: rest')).
  apply Forall_app. split; [exact Hline|]. constructor; assumption.
Qed.

(** ** The glyph rasterizer *)

Lemma char_cell_size_pos (font : Font) :
  1 <= fst (char_cell_size font) /\ 1 <= snd (char_cell_size font).
Proof.
  unfold char_cell_size. destruct (getbbox font _) as [[[x0 y0] x1] y1]. simpl. lia.
Qed.

Lemma max_len_nonneg (lines : list str) : 0 <= max_len lines.
Proof. unfold max_len. induction lines; simpl; lia. Qed.

Lemma max_len_widest (lines : list str) (cols : Z) :
  widest lines cols -> max_len lines = cols.
Proof.
  intros [Hall Hex]. unfold max_len.
  assert (Hcols : 0 <= cols).
  { apply Exists_exists in Hex. destruct Hex as [line [_ <-]]. apply len_nonneg. }
  assert (Hle : fold_right Z.max 0 (map len lines) <= cols).
  { clear Hex. induction Hall as [|l rest Hl _ IH]; simpl; lia. }
  assert (Hge : cols <= fold_right Z.max 0 (map len lines)).
  { clear Hall Hle. induction Hex as [l rest Hl|l rest _ IH]; simpl; lia. }
  lia.
Qed.

Lemma max_len_empty_lines (lines : list str) :
  Forall (fun line => line = []) lines -> max_len lines = 0.
Proof.
  intros H. unfold max_len. induction H as [|l rest Hl _ IH]; [reflexivity|].
  subst l. simpl. rewrite IH. reflexivity.
Qed.

Section RenderFacts.

Variable truetype : string -> Z -> result Font.
Variable load_default : Font.
Variable parent : string -> string.
Variable getrgb : string -> result (Z * Z * Z).
Variable save_format : string -> result string.
Variable save_handler : string -> result unit.

Lemma draw_loop_Ok (font : Font) (fg : string) (lines : list str) (y ch : Z)
    (rgb : Z * Z * Z) :
  getrgb fg = Ok rgb -> Forall (drawable font) lines ->
  draw_loop getrgb font fg lines y ch = Ok (draw_lines lines y ch fg).
Proof.
  intros Hfg H. revert y. induction H as [|line rest Hline _ IH]; intros y;
    cbn [draw_loop draw_lines]; [reflexivity|].
  rewrite Hfg. cbn [bind]. rewrite (draw_text_Ok font line Hline). cbn [bind].
  rewrite IH. reflexivity.
Qed.

Lemma save_Ok (w : world) (p : string) (f : file) (format : string) :
  save_format p = Ok format -> save_handler format = Ok tt ->
  lookup parent w p <> Some Dir -> lookup parent w (parent p) = Some Dir ->
  save parent save_format save_handler w p f = (write w p f, Ok tt).
Proof.
  intros Hfmt Hh Hp Hpp. unfold save, open_for_writing. rewrite Hfmt, Hpp.
  destruct (lookup parent w p) as [[| | |]|]; try congruence; now rewrite Hh.
Qed.

(** The rasterizer on a grid without rows or without columns. *)
Lemma render_degenerate (w w1 : world) (lines : list str) (out_path : string)
    (font_path : option string) (font_size : Z) (fg bg : string) (font : Font)
    (format : string) (rgb_fg rgb_bg : Z * Z * Z) :
  mkdir parent w (parent out_path) = (w1, Ok tt) ->
  load_font truetype load_default parent w1 font_path font_size = Ok font ->
  getrgb fg = Ok rgb_fg -> getrgb bg = Ok rgb_bg ->
  save_format out_path = Ok format -> save_handler format = Ok tt ->
  lookup parent w1 out_path <> Some Dir ->
  max_len lines = 0 \/ len lines = 0 ->
  render_ascii_to_image truetype load_default parent getrgb save_format save_handler
    w lines out_path font_path font_size fg bg
  = (write w1 out_path (Png (mkCanvas (char_cell_size font) bg [(0, 0, [], fg)])),
     Ok out_path).
Proof.
  intros Hdir Hfont Hfg Hbg Hfmt Hh Hp Hdeg. unfold render_ascii_to_image.
  rewrite Hdir, Hfont.
  pose proof (char_cell_size_pos font) as [Hcw Hch].
  destruct (char_cell_size font) as [cw ch]. simpl in Hcw, Hch.
  assert (Hd : (max_len lines =? 0) || (len lines =? 0) = true).
  { apply orb_true_iff. destruct Hdeg as [H|H]; [left|right]; now apply Z.eqb_eq. }
  rewrite Hd. cbv beta iota zeta. rewrite Hbg.
  cbn [draw_loop]. rewrite Hfg. cbn [bind draw_text encode_error].
  replace (draw_text font []) with (@Ok unit tt)
    by (unfold draw_text; cbn [encode_error]; now destruct (is_freetype font)).
  cbn [bind]. rewrite !Z.mul_1_l, (Z.max_r 1 cw), (Z.max_r 1 ch) by lia.
  rewrite (save_Ok w1 out_path _ format Hfmt Hh Hp (mkdir_Dir parent _ _ _ Hdir)).
  reflexivity.
Qed.

(** The rasterizer on a grid with rows and columns that the font can
    draw. *)
Lemma render_nondegenerate (w w1 : world) (lines : list str) (out_path : string)
    (font_path : option string) (font_size : Z) (fg bg : string) (font : Font)
    (format : string) (rgb_fg rgb_bg : Z * Z * Z) :
  mkdir parent w (parent out_path) = (w1, Ok tt) ->
  load_font truetype load_default parent w1 font_path font_size = Ok font ->
  getrgb fg = Ok rgb_fg -> getrgb bg = Ok rgb_bg ->
  save_format out_path = Ok format -> save_handler format = Ok tt ->
  lookup parent w1 out_path <> Some Dir ->
  Forall (drawable font) lines ->
  len lines <> 0 -> max_len lines <> 0 ->
  render_ascii_to_image truetype load_default parent getrgb save_format save_handler
    w lines out_path font_path font_size fg bg
  = (write w1 out_path
       (Png (mkCanvas (max_len lines * fst (char_cell_size font),
                       len lines * snd (char_cell_size font)) bg
                      (draw_lines lines 0 (snd (char_cell_size font)) fg))),
     Ok out_path).
Proof.
  intros Hdir Hfont Hfg Hbg Hfmt Hh Hp Hdraw Hrows Hcols. unfold render_ascii_to_image.
  rewrite Hdir, Hfont.
  pose proof (char_cell_size_pos font) as [Hcw Hch].
  pose proof (max_len_nonneg lines) as Hc0. pose proof (len_nonneg lines) as Hr0.
  destruct (char_cell_size font) as [cw ch]. simpl in Hcw, Hch.
  assert (Hd : (max_len lines =? 0) || (len lines =? 0) = false).
  { apply orb_false_iff. split; apply Z.eqb_neq; assumption. }
  rewrite Hd. cbv beta iota zeta. rewrite Hbg.
  rewrite (draw_loop_Ok font fg lines 0 ch rgb_fg Hfg Hdraw).
  cbn [fst snd].
  rewrite (Z.max_r 1 (max_len lines * cw)), (Z.max_r 1 (len lines * ch)) by nia.
  rewrite (save_Ok w1 out_path _ format Hfmt Hh Hp (mkdir_Dir parent _ _ _ Hdir)).
  reflexivity.
Qed.

(** Where the rasterizer fails before it draws. *)
Lemma render_mkdir_Raise (w w1 : world) (lines : list str) (out_path : string)
    (font_path : option string) (font_size : Z) (fg bg : string) (e : exn) :
  mkdir parent w (parent out_path) = (w1, Raise e) ->
  render_ascii_to_image truetype load_default parent getrgb save_format save_handler
    w lines out_path font_path font_size fg bg
  = (w1, Raise e).
Proof. intros Hdir. unfold render_ascii_to_image. now rewrite Hdir. Qed.

Lemma render_font_Raise (w w1 : world) (lines : list str) (out_path : string)
    (font_path : option string) (font_size : Z) (fg bg : string) (e : exn) :
  mkdir parent w (parent out_path) = (w1, Ok tt) ->
  load_font truetype load_default parent w1 font_path font_size = Raise e ->
  render_ascii_to_image truetype load_default parent getrgb save_format save_handler
    w lines out_path font_path font_size fg bg
  = (w1, Raise e).
Proof. intros Hdir Hfont. unfold render_ascii_to_image. now rewrite Hdir, Hfont. Qed.

End RenderFacts.

(** C7, as the script behaves.  Let (x0, y0, x1, y1) be the bounding
    box the font gives for one glyph, cw = max(1, x1 - x0) and
    ch = max(1, y1 - y0).  Whenever the directory of the output file can
    be made, the font loads, both colours are known to Pillow and the
    file can be written: for every character grid with zero rows or zero
    columns (the empty list of lines included) the rasterizer returns and
    saves a canvas of exactly one glyph cell (cw x ch), of non-zero area,
    holding one empty line; and for every grid of at least one row whose
    widest row has [cols] >= 1 characters, all of which the font can
    draw, it saves a canvas of size (cols * cw, rows * ch), again of
    non-zero area. *)
Theorem render_canvas_size (truetype : string -> Z -> result Font) (load_default : Font)
    (parent : string -> string) (getrgb : string -> result (Z * Z * Z))
    (save_format : string -> result string) (save_handler : string -> result unit)
    (w w1 : world) (lines : list str) (out_path : string) (font_path : option string)
    (font_size : Z) (fg bg : string) (font : Font) (format : string)
    (rgb_fg rgb_bg : Z * Z * Z) (x0 y0 x1 y1 : Z) :
  mkdir parent w (parent out_path) = (w1, Ok tt) ->
  load_font truetype load_default parent w1 font_path font_size = Ok font ->
  getbbox font (str_of_string "A") = (x0, y0, x1, y1) ->
  getrgb fg = Ok rgb_fg -> getrgb bg = Ok rgb_bg ->
  save_format out_path = Ok format -> save_handler format = Ok tt ->
  lookup parent w1 out_path <> Some Dir ->
  (lines = [] \/ Forall (fun line => line = []) lines ->
   render_ascii_to_image truetype load_default parent getrgb save_format save_handler
     w lines out_path font_path font_size fg bg
   = (write w1 out_path
        (Png (mkCanvas (Z.max 1 (x1 - x0), Z.max 1 (y1 - y0)) bg [(0, 0, [], fg)])),
      Ok out_path) /\
   0 < Z.max 1 (x1 - x0) * Z.max 1 (y1 - y0)) /\
  (forall cols, 0 < cols -> widest lines cols -> Forall (drawable font) lines ->
   (exists calls,
      render_ascii_to_image truetype load_default parent getrgb save_format save_handler
        w lines out_path font_path font_size fg bg
      = (write w1 out_path
           (Png (mkCanvas (cols * Z.max 1 (x1 - x0), len lines * Z.max 1 (y1 - y0))
                          bg calls)),
         Ok out_path)) /\
   0 < (cols * Z.max 1 (x1 - x0)) * (len lines * Z.max 1 (y1 - y0))).
Proof.
  intros Hdir Hfont Hbox Hfg Hbg Hfmt Hh Hp.
  assert (Hcell : char_cell_size font = (Z.max 1 (x1 - x0), Z.max 1 (y1 - y0))).
  { unfold char_cell_size. rewrite Hbox. reflexivity. }
  split.
  - intros Hdeg. split; [|apply Z.mul_pos_pos; lia].
    rewrite <- Hcell.
    apply (render_degenerate truetype load_default parent getrgb save_format save_handler
             w w1 lines out_path font_path font_size fg bg font format rgb_fg rgb_bg);
      try assumption.
    destruct Hdeg as [->|Hempty]; [right; reflexivity|left].
    now apply max_len_empty_lines.
  - intros cols Hcols Hwidest Hdraw.
    pose proof (max_len_widest lines cols Hwidest) as Hmax.
    assert (Hrows : 0 < len lines).
    { destruct Hwidest as [_ Hex]. destruct lines; [inversion Hex|]. unfold len. simpl. lia. }
    split; [|apply Z.mul_pos_pos; apply Z.mul_pos_pos; lia].
    eexists. rewrite <- Hmax.
    replace (Z.max 1 (x1 - x0)) with (fst (char_cell_size font)) by now rewrite Hcell.
    replace (Z.max 1 (y1 - y0)) with (snd (char_cell_size font)) by now rewrite Hcell.
    apply (render_nondegenerate truetype load_default parent getrgb save_format save_handler
             w w1 lines out_path font_path font_size fg bg font format rgb_fg rgb_bg);
      try assumption; lia.
Qed.

Lemma render_canvas_size_witness :
  (render_ascii_to_image no_truetype bitmap_font posix_parent named_colors png_only rgb_writer
     empty_world [] "out/a.png" None 14 "black" "white"
   = (write (write empty_world "out" Dir) "out/a.png"
        (Png (mkCanvas (6, 11) "white" [(0, 0, [], "black"%string)])),
      Ok "out/a.png"%string) /\
   0 < 6 * 11) /\
  (exists calls,
     render_ascii_to_image no_truetype bitmap_font posix_parent named_colors png_only
       rgb_writer empty_world [[64; 37; 35]; [35; 42]]%N "out/a.png" None 14 "black" "white"
     = (write (write empty_world "out" Dir) "out/a.png"
          (Png (mkCanvas (3 * 6, 2 * 11) "white" calls)),
        Ok "out/a.png"%string)) /\
  0 < (3 * 6) * (2 * 11).
Proof.
  split.
  - apply (proj1 (render_canvas_size no_truetype bitmap_font posix_parent named_colors
                    png_only rgb_writer empty_world (write empty_world "out" Dir) []
                    "out/a.png" None 14 "black" "white" bitmap_font "PNG"
                    (0, 0, 0) (255, 255, 255) 0 0 6 11
                    eq_refl eq_refl eq_refl eq_refl eq_refl eq_refl eq_refl
                    ltac:(discriminate))).
    left. reflexivity.
  - apply (proj2 (render_canvas_size no_truetype bitmap_font posix_parent named_colors
                    png_only rgb_writer empty_world (write empty_world "out" Dir)
                    [[64; 37; 35]; [35; 42]]%N
                    "out/a.png" None 14 "black" "white" bitmap_font "PNG"
                    (0, 0, 0) (255, 255, 255) 0 0 6 11
                    eq_refl eq_refl eq_refl eq_refl eq_refl eq_refl eq_refl
                    ltac:(discriminate)) 3).
    + lia.
    + split.
      * repeat (apply Forall_cons; [unfold len; simpl; lia|]). apply Forall_nil.
      * apply Exists_cons_hd. reflexivity.
    + repeat (apply Forall_cons;
              [right; repeat (apply Forall_cons; [reflexivity|]); apply Forall_nil|]).
      apply Forall_nil.
Defined.

(** C7 as the specification states it fails: the rasterizer does fail on
    an empty grid.  Where a regular file has the name of the output
    directory, [mkdir] raises [FileExistsError]; with an output name
    whose extension Pillow does not know, [save] raises [ValueError];
    and a TrueType font asked for at size 0 cannot be opened.  No canvas
    is saved in any of the three runs. *)
Lemma empty_grid_render_can_fail :
  render_ascii_to_image no_truetype bitmap_font posix_parent named_colors png_only rgb_writer
    blocked_world [] "out/a.png" None 14 "black" "white"
  = (blocked_world, Raise (OSError "File exists")) /\
  render_ascii_to_image no_truetype bitmap_font posix_parent named_colors png_only rgb_writer
    empty_world [] "out/a" None 14 "black" "white"
  = (write empty_world "out" Dir, Raise (ValueError "unknown file extension: ")) /\
  render_ascii_to_image mono_ttf bitmap_font posix_parent named_colors png_only rgb_writer
    font_world [] "out/a.png" (Some "fonts/mono.ttf"%string) 0 "black" "white"
  = (write font_world "out" Dir, Raise (ValueError "font size must be greater than 0")).
Proof. split; [reflexivity|]. split; reflexivity. Qed.

(** ** Missing input *)

Section MainFacts.

Variable rgb2l : Z * Z * Z -> Z.
Variable resize : PIL.Gray -> Z * Z -> PIL.Gray.
Variable truetype : string -> Z -> result Font.
Variable load_default : Font.
Variable stem : string -> string.
Variable parent : string -> string.
Variable getrgb : string -> result (Z * Z * Z).
Variable save_format : string -> result string.
Variable save_handler : string -> result unit.

Lemma main_resolve_Raise (w : world) (args : Args) (e : exn) :
  resolve_input parent save_format save_handler w args = (w, Raise e) ->
  main rgb2l resize truetype load_default stem parent getrgb save_format save_handler w args
  = (w, Raise e).
Proof. intros H. unfold main. rewrite H. reflexivity. Qed.

End MainFacts.

(** C8, as the script behaves: for every run without the demo flag in
    which no input path is given, and for every run without the demo flag
    whose given input path does not exist, the program raises
    [SystemExit] with a descriptive message, so it terminates with
    status 1, and it has written no file and printed nothing. *)
Theorem missing_input_exits (rgb2l : Z * Z * Z -> Z)
    (resize : PIL.Gray -> Z * Z -> PIL.Gray) (truetype : string -> Z -> result Font)
    (load_default : Font) (stem parent : string -> string)
    (getrgb : string -> result (Z * Z * Z)) (save_format : string -> result string)
    (save_handler : string -> result unit) (w : world) (args : Args) :
  demo args = false ->
  (truthy (input args) = false ->
   main rgb2l resize truetype load_default stem parent getrgb save_format save_handler w args
   = (w, Raise (SystemExit "Error: provide --input <path> or use --demo."))) /\
  (forall p, input args = Some p -> p <> ""%string -> exists_ parent w p = false ->
   main rgb2l resize truetype load_default stem parent getrgb save_format save_handler w args
   = (w, Raise (SystemExit ("Error: input image not found: " ++ p)))) /\
  (truthy (input args) = false \/
   (exists p, input args = Some p /\ p <> ""%string /\ exists_ parent w p = false) ->
   exit_status (snd (main rgb2l resize truetype load_default stem parent getrgb save_format
                       save_handler w args)) = 1 /\
   exit_message (snd (main rgb2l resize truetype load_default stem parent getrgb save_format
                        save_handler w args)) <> None /\
   fst (main rgb2l resize truetype load_default stem parent getrgb save_format save_handler
          w args) = w).
Proof.
  intros Hdemo.
  assert (H1 : truthy (input args) = false ->
               main rgb2l resize truetype load_default stem parent getrgb save_format
                 save_handler w args
               = (w, Raise (SystemExit "Error: provide --input <path> or use --demo."))).
  { intros Hin. apply main_resolve_Raise. unfold resolve_input. rewrite Hdemo.
    destruct (input args) as [p|]; [|reflexivity]. rewrite Hin. reflexivity. }
  assert (H2 : forall p, input args = Some p -> p <> ""%string ->
               exists_ parent w p = false ->
               main rgb2l resize truetype load_default stem parent getrgb save_format
                 save_handler w args
               = (w, Raise (SystemExit ("Error: input image not found: " ++ p)))).
  { intros p Hp Hne Hex. apply main_resolve_Raise. unfold resolve_input.
    rewrite Hdemo, Hp. simpl truthy.
    assert (Heq : String.eqb p "" = false) by (apply String.eqb_neq; exact Hne).
    rewrite Heq, Hex. reflexivity. }
  split; [exact H1|]. split; [exact H2|].
  intros [Hin|[p [Hp [Hne Hex]]]].
  - rewrite (H1 Hin). simpl. repeat split. discriminate.
  - rewrite (H2 p Hp Hne Hex). simpl. repeat split. discriminate.
Qed.

Lemma missing_input_exits_witness :
  main luma PIL.resize_nearest no_truetype bitmap_font posix_stem posix_parent named_colors
    png_only rgb_writer empty_world
    (mkArgs (Some "photo.jpg"%string) 80 false dense float_0_5 None None None 14 false)
  = (empty_world, Raise (SystemExit "Error: input image not found: photo.jpg")).
Proof.
  apply (proj1 (proj2 (missing_input_exits luma PIL.resize_nearest no_truetype bitmap_font
           posix_stem posix_parent named_colors png_only rgb_writer empty_world
           (mkArgs (Some "photo.jpg"%string) 80 false dense float_0_5 None None None 14 false)
           eq_refl)) "photo.jpg"%string).
  - reflexivity.
  - discriminate.
  - reflexivity.
Defined.

(** C8 as the specification states it fails: with the demo flag set, a
    run whose given input path does not exist converts the demo picture,
    writes its two files and ends with status 0. *)
Lemma demo_run_ignores_missing_input :
  input demo_args = Some "missing.png"%string /\
  exists_ posix_parent demo_world "missing.png" = false /\
  snd (main luma PIL.resize_nearest no_truetype bitmap_font posix_stem posix_parent
         named_colors png_only rgb_writer demo_world demo_args) = Ok tt /\
  exit_status (snd (main luma PIL.resize_nearest no_truetype bitmap_font posix_stem
                      posix_parent named_colors png_only rgb_writer demo_world demo_args))
  = 0 /\
  exists_ posix_parent
    (fst (main luma PIL.resize_nearest no_truetype bitmap_font posix_stem posix_parent
            named_colors png_only rgb_writer demo_world demo_args)) "out/demo_10.txt"
  = true /\
  exists_ posix_parent
    (fst (main luma PIL.resize_nearest no_truetype bitmap_font posix_stem posix_parent
            named_colors png_only rgb_writer demo_world demo_args)) "out/demo_10.png"
  = true.
Proof. vm_compute. repeat split. Qed.

(** * Further properties of the script *)

(** ** Font discovery *)

Section FontFacts.

Variable truetype : string -> Z -> result Font.
Variable load_default : Font.
Variable parent : string -> string.

Lemma first_candidate_cases (w : world) (candidates : list string) :
  first_candidate truetype load_default parent w candidates = load_default \/
  exists p, In p candidates /\ exists_ parent w p = true /\
            truetype p 12 = Ok (first_candidate truetype load_default parent w candidates).
Proof.
  induction candidates as [|c rest IH]; simpl; [now left|].
  destruct (exists_ parent w c) eqn:Hex.
  - destruct (truetype c 12) as [f|e] eqn:Hf.
    + right. exists c. auto.
    + destruct IH as [IH|[p [Hin [Hp Hf']]]]; [now left|]. right. exists p. auto.
  - destruct IH as [IH|[p [Hin [Hp Hf']]]]; [now left|]. right. exists p. auto.
Qed.

Lemma first_candidate_none (w : world) (candidates : list string) :
  Forall (fun c => exists_ parent w c = false \/ exists e, truetype c 12 = Raise e)
         candidates ->
  first_candidate truetype load_default parent w candidates = load_default.
Proof.
  induction 1 as [|c rest Hc _ IH]; simpl; [reflexivity|].
  destruct Hc as [Hc|[e Hc]].
  - now rewrite Hc.
  - rewrite Hc. now destruct (exists_ parent w c).
Qed.

End FontFacts.

(** X1: every font the discovery returns is either the built-in default or a
    font that [truetype] opened at size 12 from a file that exists, the
    file being the requested path or one of the Windows candidates. *)
Theorem found_font_provenance (truetype : string -> Z -> result Font) (load_default : Font)
    (parent : string -> string) (w : world) (font_path : option string) :
  find_monospace_font truetype load_default parent w font_path = load_default \/
  exists p,
    (font_path = Some p \/ In p WINDOWS_FONT_CANDIDATES) /\
    exists_ parent w p = true /\
    truetype p 12 = Ok (find_monospace_font truetype load_default parent w font_path).
Proof.
  unfold find_monospace_font.
  pose proof (first_candidate_cases truetype load_default parent w WINDOWS_FONT_CANDIDATES)
    as Hc.
  assert (Hfall : first_candidate truetype load_default parent w WINDOWS_FONT_CANDIDATES
                  = load_default \/
                  exists p, (font_path = Some p \/ In p WINDOWS_FONT_CANDIDATES) /\
                            exists_ parent w p = true /\
                            truetype p 12
                            = Ok (first_candidate truetype load_default parent w
                                    WINDOWS_FONT_CANDIDATES)).
  { destruct Hc as [Hc|[p [Hin [Hp Hf]]]]; [now left|]. right. exists p. auto. }
  destruct font_path as [fp|]; [|exact Hfall].
  destruct (truthy (Some fp) && exists_ parent w fp) eqn:Hreq; [|exact Hfall].
  apply andb_prop in Hreq. destruct Hreq as [_ Hex].
  destruct (truetype fp 12) as [f|e] eqn:Hf; [|exact Hfall].
  right. exists fp. auto.
Qed.

(** X2: when the requested font is absent, empty, missing or unloadable and
    no Windows candidate can be loaded, the built-in default is used. *)
Theorem default_font_fallback (truetype : string -> Z -> result Font) (load_default : Font)
    (parent : string -> string) (w : world) (font_path : option string) :
  (forall p, font_path = Some p ->
     p = ""%string \/ exists_ parent w p = false \/ exists e, truetype p 12 = Raise e) ->
  Forall (fun c => exists_ parent w c = false \/ exists e, truetype c 12 = Raise e)
         WINDOWS_FONT_CANDIDATES ->
  find_monospace_font truetype load_default parent w font_path = load_default.
Proof.
  intros Hreq Hcand. unfold find_monospace_font.
  pose proof (first_candidate_none truetype load_default parent w WINDOWS_FONT_CANDIDATES
                Hcand) as Hd.
  destruct font_path as [fp|]; [|exact Hd].
  destruct (Hreq fp eq_refl) as [->|[Hex|[e He]]].
  - simpl. exact Hd.
  - rewrite Hex, andb_false_r. exact Hd.
  - rewrite He. destruct (truthy (Some fp) && exists_ parent w fp); exact Hd.
Qed.

(** ** The drawing loop and the canvas of a rectangular grid *)



Lemma max_len_rectangular (lines : list str) (n : Z) :
  lines <> [] -> 0 <= n -> Forall (fun line => len line = n) lines -> max_len lines = n.
Proof.
  intros Hne Hn Hall. unfold max_len.
  assert (H : fold_right Z.max 0 (map len lines) = match lines with [] => 0 | _ => n end).
  { clear Hne. induction Hall as [|l rest Hl Hrest IH]; [reflexivity|]. simpl. rewrite IH.
    destruct rest; lia. }
  rewrite H. destruct lines; [congruence|reflexivity].
Qed.

Lemma max_len_pos (lines : list str) :
  Exists (fun line => line <> []) lines -> len lines <> 0 /\ max_len lines <> 0.
Proof.
  intros Hex. split.
  - destruct lines; [inversion Hex|]. unfold len. simpl. lia.
  - unfold max_len. induction Hex as [l rest Hl|l rest _ IH]; simpl.
    + destruct l; [congruence|]. pose proof (max_len_nonneg rest) as H0.
      unfold max_len in H0. unfold len. simpl. lia.
    + pose proof (len_nonneg l). unfold max_len in *.
      assert (0 <= fold_right Z.max 0 (map len rest)) by apply (max_len_nonneg rest).
      lia.
Qed.


(** ** Rendering the converted grid, and the whole run *)

Section RunFacts.

Variable rgb2l : Z * Z * Z -> Z.
Variable resize : PIL.Gray -> Z * Z -> PIL.Gray.
Variable truetype : string -> Z -> result Font.
Variable load_default : Font.
Variable stem : string -> string.
Variable parent : string -> string.
Variable getrgb : string -> result (Z * Z * Z).
Variable save_format : string -> result string.
Variable save_handler : string -> result unit.

Lemma lines_In (img : PIL.Image) (width : Z) (charset : str) (invert : bool)
    (scale_y : float) (lines : list str) :
  image_to_ascii_lines rgb2l resize img width charset invert scale_y = Ok lines ->
  Forall (fun line => Forall (fun c => In c charset) line) lines.
Proof.
  unfold image_to_ascii_lines.
  destruct (index_grid rgb2l resize img width charset invert scale_y) as [idx|e];
    cbn [bind]; [apply build_lines_In|discriminate].
Qed.

(** The font can draw the lines of a palette it can draw. *)
Lemma lines_drawable (font : Font) (charset : str) (lines : list str) :
  is_freetype font = true \/ Forall (fun c => (c < 256)%N) charset ->
  Forall (fun line => Forall (fun c => In c charset) line) lines ->
  Forall (drawable font) lines.
Proof.
  intros Hd Hin. eapply Forall_impl; [|exact Hin]. intros line Hline. simpl in Hline.
  destruct Hd as [Hft|Hlat]; [now left|right].
  rewrite Forall_forall in Hlat. eapply Forall_impl; [|exact Hline].
  intros c Hc. now apply Hlat.
Qed.

(** The text of a preset palette is written as it is. *)
Lemma write_text_preset (w : world) (p : string) (name : charset_name) (lines : list str) :
  lookup parent w (parent p) = Some Dir -> lookup parent w p <> Some Dir ->
  Forall (fun line => Forall (fun c => In c (CHARSETS name)) line) lines ->
  write_text parent w p (join_lines lines) = (write w p (Text (join_lines lines)), Ok tt).
Proof.
  intros Hpp Hp Hin. unfold write_text, open_for_writing. rewrite Hpp.
  assert (Henc : encode_error is_utf8 (join_lines lines) 0 = None).
  { apply encode_error_None. apply join_lines_Forall; [reflexivity|].
    eapply Forall_impl; [|exact Hin]. intros line Hline. simpl in Hline.
    pose proof (preset_is_utf8 name) as Hutf. rewrite Forall_forall in Hutf.
    eapply Forall_impl; [|exact Hline]. intros c Hc. now apply Hutf. }
  destruct (lookup parent w p) as [[| | |]|]; try congruence; now rewrite Henc.
Qed.

Lemma main_after_text (w w1 wa : world) (args : Args) (p : string) (img0 : PIL.Image)
    (lines : list str) :
  resolve_input parent save_format save_handler w args = (w1, Ok p) ->
  image_open parent w1 p = Ok img0 ->
  image_to_ascii_lines rgb2l resize (convert_RGB img0) (width args)
    (CHARSETS (charset args)) (invert args) (scale_y args) = Ok lines ->
  mkdir parent w1 "out" = (wa, Ok tt) ->
  lookup parent wa (parent (out_path_of (out_text args) (stem p) (width args) ".txt"))
  = Some Dir ->
  lookup parent wa (out_path_of (out_text args) (stem p) (width args) ".txt") <> Some Dir ->
  main rgb2l resize truetype load_default stem parent getrgb save_format save_handler w args
  = match render_ascii_to_image truetype load_default parent getrgb save_format save_handler
            (write wa (out_path_of (out_text args) (stem p) (width args) ".txt")
                   (Text (join_lines lines)))
            lines (out_path_of (out_image args) (stem p) (width args) ".png")
            (font_path args) (font_size args) "black" "white" with
    | (w2, Raise e) => (w2, Raise e)
    | (w2, Ok _) =>
        (print (print (print w2
           ("ASCII text saved to: "
            ++ out_path_of (out_text args) (stem p) (width args) ".txt"))
           ("Rendered PNG saved to: "
            ++ out_path_of (out_image args) (stem p) (width args) ".png"))
           "Done.", Ok tt)
    end.
Proof.
  intros Hres Hopen Hconv Hmk Hpp Hp.
  pose proof (write_text_preset wa _ (charset args) lines Hpp Hp (lines_In _ _ _ _ _ _ Hconv))
    as Hwt.
  unfold main. rewrite Hres, Hopen, Hconv, Hmk. cbv zeta.
  unfold out_path_of in *. rewrite Hwt. reflexivity.
Qed.

Lemma main_conversion_Raise (w w1 : world) (args : Args) (p : string) (img0 : PIL.Image)
    (e : exn) :
  resolve_input parent save_format save_handler w args = (w1, Ok p) ->
  image_open parent w1 p = Ok img0 ->
  image_to_ascii_lines rgb2l resize (convert_RGB img0) (width args)
    (CHARSETS (charset args)) (invert args) (scale_y args) = Raise e ->
  main rgb2l resize truetype load_default stem parent getrgb save_format save_handler w args
  = (w1, Raise e).
Proof.
  intros Hres Hopen Hconv. unfold main. rewrite Hres, Hopen, Hconv. reflexivity.
Qed.

Lemma resolve_input_given (w : world) (args : Args) (p : string) :
  demo args = false -> input args = Some p -> p <> ""%string ->
  exists_ parent w p = true ->
  resolve_input parent save_format save_handler w args = (w, Ok p).
Proof.
  intros Hdemo Hp Hne Hex. unfold resolve_input. rewrite Hdemo, Hp. simpl truthy.
  assert (Heq : String.eqb p "" = false) by (apply String.eqb_neq; exact Hne).
  rewrite Heq, Hex. reflexivity.
Qed.

(** The text file is still there after the directory of the PNG is made. *)
Lemma text_kept (wa wb : world) (txt dir : string) (content : str) (r : result unit) :
  lookup parent wa txt <> Some Dir ->
  mkdir parent (write wa txt (Text content)) dir = (wb, r) ->
  lookup parent wb txt = Some (Text content) /\ stdout wb = stdout wa.
Proof.
  intros Hp Hmk. destruct (mkdir_keeps parent _ _ _ _ Hmk) as [Hout Hkeep]. split.
  - apply Hkeep. now apply lookup_write_same.
  - exact Hout.
Qed.

(** The built-in bitmap font cannot draw a character above 255. *)
Lemma draw_loop_Raise (font : Font) (fg : string) (lines : list str) (y ch : Z)
    (rgb : Z * Z * Z) :
  getrgb fg = Ok rgb -> is_freetype font = false ->
  Exists (fun line => Exists (fun c => (256 <= c)%N) line) lines ->
  exists start stop,
    draw_loop getrgb font fg lines y ch = Raise (UnicodeEncodeError "latin-1" start stop).
Proof.
  intros Hfg Hft Hex. revert y.
  induction Hex as [line rest Hline|line rest _ IH]; intros y; cbn [draw_loop];
    rewrite Hfg; cbn [bind]; unfold draw_text; rewrite Hft.
  - destruct (encode_error_Some is_latin1 line 0) as [start [stop Henc]].
    { eapply Exists_impl; [|exact Hline]. intros c Hc. simpl in Hc.
      unfold is_latin1. apply N.ltb_ge. exact Hc. }
    rewrite Henc. cbn [bind]. eauto.
  - destruct (encode_error is_latin1 line 0) as [[start stop]|]; cbn [bind]; [eauto|].
    destruct (IH (y + ch)) as [start [stop Hrest]]. rewrite Hrest. cbn [bind]. eauto.
Qed.

Lemma render_draw_Raise (w w1 : world) (lines : list str) (out_path : string)
    (font_path : option string) (font_size : Z) (fg bg : string) (font : Font)
    (rgb_fg rgb_bg : Z * Z * Z) :
  mkdir parent w (parent out_path) = (w1, Ok tt) ->
  load_font truetype load_default parent w1 font_path font_size = Ok font ->
  is_freetype font = false ->
  getrgb fg = Ok rgb_fg -> getrgb bg = Ok rgb_bg ->
  Exists (fun line => Exists (fun c => (256 <= c)%N) line) lines ->
  exists start stop,
    render_ascii_to_image truetype load_default parent getrgb save_format save_handler
      w lines out_path font_path font_size fg bg
    = (w1, Raise (UnicodeEncodeError "latin-1" start stop)).
Proof.
  intros Hdir Hfont Hft Hfg Hbg Hex. unfold render_ascii_to_image. rewrite Hdir, Hfont.
  destruct (char_cell_size font) as [cw ch].
  assert (Hne : Exists (fun line : str => line <> []) lines).
  { eapply Exists_impl; [|exact Hex]. intros line Hline. simpl in Hline.
    intros ->. inversion Hline. }
  destruct (max_len_pos lines Hne) as [Hrows Hcols].
  assert (Hd : (max_len lines =? 0) || (len lines =? 0) = false).
  { apply orb_false_iff. split; apply Z.eqb_neq; assumption. }
  rewrite Hd. cbv beta iota zeta. rewrite Hbg.
  destruct (draw_loop_Raise font fg lines 0 ch rgb_fg Hfg Hft Hex) as [start [stop Hloop]].
  rewrite Hloop. eauto.
Qed.

End RunFacts.

(** X4: the conversion followed by the rasterizer: whenever the directory
    of the output file can be made, the font loads and can draw the
    palette, the colours are known and the file can be written, the
    lines of a source grid are rendered on a canvas of width
    [width * cw] and height [new_h * ch], [new_h] being the target
    height. *)
Theorem converted_grid_canvas (rgb2l : Z * Z * Z -> Z)
    (resize : PIL.Gray -> Z * Z -> PIL.Gray) (truetype : string -> Z -> result Font)
    (load_default : Font) (parent : string -> string)
    (getrgb : string -> result (Z * Z * Z)) (save_format : string -> result string)
    (save_handler : string -> result unit) (w w1 : world) (g : PIL.Gray)
    (width : Z) (charset : str) (invert : bool) (scale_y : float) (size1 : Z * Z)
    (out_path : string) (font_path : option string) (font_size : Z) (fg bg : string)
    (font : Font) (format : string) (rgb_fg rgb_bg : Z * Z * Z) :
  PIL.resize_contract resize -> PIL.source_grid g -> 10 <= width -> charset <> [] ->
  target_size (PIL.gsize g) width scale_y = Ok size1 ->
  mkdir parent w (parent out_path) = (w1, Ok tt) ->
  load_font truetype load_default parent w1 font_path font_size = Ok font ->
  is_freetype font = true \/ Forall (fun c => (c < 256)%N) charset ->
  getrgb fg = Ok rgb_fg -> getrgb bg = Ok rgb_bg ->
  save_format out_path = Ok format -> save_handler format = Ok tt ->
  lookup parent w1 out_path <> Some Dir ->
  exists lines c,
    image_to_ascii_lines rgb2l resize (PIL.L g) width charset invert scale_y = Ok lines /\
    render_ascii_to_image truetype load_default parent getrgb save_format save_handler
      w lines out_path font_path font_size fg bg
    = (write w1 out_path (Png c), Ok out_path) /\
    csize c = (width * fst (char_cell_size font), snd size1 * snd (char_cell_size font)).
Proof.
  intros Hres Hg Hw Hne Hs Hdir Hfont Hdraw Hfg Hbg Hfmt Hh Hp. destruct size1 as [w1' h1].
  destruct (target_size_Ok _ _ _ _ Hs) as [Hw1 Hh1]. simpl in Hw1, Hh1. subst w1'.
  destruct (lines_shape rgb2l resize g width charset invert scale_y width h1
              Hres Hg Hw Hne Hs) as [lines [Hl [_ [Hrows Hcols]]]].
  assert (Hlen : len lines = h1) by (unfold len; rewrite Hrows; lia).
  assert (Hlines : lines <> []).
  { intros ->. unfold len in Hlen. simpl in Hlen. lia. }
  assert (Hmax : max_len lines = width).
  { apply max_len_rectangular; [exact Hlines|lia|].
    eapply Forall_impl; [|exact Hcols]. intros line Hline. simpl in Hline.
    unfold len. rewrite Hline. lia. }
  eexists lines, _. split; [exact Hl|]. split.
  - apply (render_nondegenerate truetype load_default parent getrgb save_format save_handler
             w w1 lines out_path font_path font_size fg bg font format rgb_fg rgb_bg);
      try assumption; try lia.
    apply (lines_drawable font charset lines Hdraw).
    exact (lines_In rgb2l resize _ _ _ _ _ _ Hl).
  - cbn [csize snd]. rewrite Hmax, Hlen. reflexivity.
Qed.

(** X5: a run on an existing picture with a width below 10 ends with the
    width [ValueError] (status 1) and has written and printed nothing. *)
Theorem small_width_run_exits (rgb2l : Z * Z * Z -> Z)
    (resize : PIL.Gray -> Z * Z -> PIL.Gray) (truetype : string -> Z -> result Font)
    (load_default : Font) (stem parent : string -> string)
    (getrgb : string -> result (Z * Z * Z)) (save_format : string -> result string)
    (save_handler : string -> result unit) (w : world) (args : Args)
    (p : string) (img0 : PIL.Image) :
  demo args = false -> input args = Some p -> p <> ""%string ->
  lookup parent w p = Some (Picture img0) -> width args < 10 ->
  main rgb2l resize truetype load_default stem parent getrgb save_format save_handler w args
  = (w, Raise (ValueError width_too_small)) /\
  exit_status (snd (main rgb2l resize truetype load_default stem parent getrgb save_format
                      save_handler w args)) = 1.
Proof.
  intros Hdemo Hp Hne Hfile Hw.
  assert (Hmain : main rgb2l resize truetype load_default stem parent getrgb save_format
                    save_handler w args
                  = (w, Raise (ValueError width_too_small))).
  { apply (main_conversion_Raise rgb2l resize truetype load_default stem parent getrgb
             save_format save_handler w w args p img0).
    - apply resolve_input_given; auto. eapply exists_lookup; eauto.
    - unfold image_open. now rewrite Hfile.
    - unfold image_to_ascii_lines. rewrite index_grid_small by exact Hw. reflexivity. }
  rewrite Hmain. split; reflexivity.
Qed.

(** X6: the text file is written before the PNG is rendered: when the font
    cannot be loaded at the requested size, the run ends with that
    exception, has printed nothing since the input was resolved, and
    leaves the text file behind. *)
Theorem render_failure_keeps_text (rgb2l : Z * Z * Z -> Z)
    (resize : PIL.Gray -> Z * Z -> PIL.Gray) (truetype : string -> Z -> result Font)
    (load_default : Font) (stem parent : string -> string)
    (getrgb : string -> result (Z * Z * Z)) (save_format : string -> result string)
    (save_handler : string -> result unit) (w w1 wa wb : world) (args : Args)
    (p : string) (img0 : PIL.Image) (lines : list str) (e : exn) :
  resolve_input parent save_format save_handler w args = (w1, Ok p) ->
  image_open parent w1 p = Ok img0 ->
  image_to_ascii_lines rgb2l resize (convert_RGB img0) (width args)
    (CHARSETS (charset args)) (invert args) (scale_y args) = Ok lines ->
  mkdir parent w1 "out" = (wa, Ok tt) ->
  lookup parent wa (parent (out_path_of (out_text args) (stem p) (width args) ".txt"))
  = Some Dir ->
  lookup parent wa (out_path_of (out_text args) (stem p) (width args) ".txt") <> Some Dir ->
  mkdir parent
    (write wa (out_path_of (out_text args) (stem p) (width args) ".txt")
           (Text (join_lines lines)))
    (parent (out_path_of (out_image args) (stem p) (width args) ".png"))
  = (wb, Ok tt) ->
  load_font truetype load_default parent wb (font_path args) (font_size args) = Raise e ->
  exists w2,
    main rgb2l resize truetype load_default stem parent getrgb save_format save_handler w args
    = (w2, Raise e) /\
    lookup parent w2 (out_path_of (out_text args) (stem p) (width args) ".txt")
    = Some (Text (join_lines lines)) /\
    stdout w2 = stdout w1.
Proof.
  intros Hres Hopen Hconv Hmk Hpp Hp Hmk2 Hfont.
  rewrite (main_after_text rgb2l resize truetype load_default stem parent getrgb save_format
             save_handler w w1 wa args p img0 lines Hres Hopen Hconv Hmk Hpp Hp).
  rewrite (render_font_Raise truetype load_default parent getrgb save_format save_handler
             _ wb lines _ _ _ _ _ e Hmk2 Hfont).
  exists wb. split; [reflexivity|].
  destruct (text_kept parent wa wb _ _ _ _ Hp Hmk2) as [Htxt Hout].
  split; [exact Htxt|]. rewrite Hout. exact (proj1 (mkdir_keeps parent _ _ _ _ Hmk)).
Qed.


(** X14: the built-in bitmap font takes its text as Latin-1: a run whose
    lines hold a character above 255 (as the [blocks] and [dots]
    palettes can give) and whose font is not a FreeType font ends with
    [UnicodeEncodeError] from the first [draw.text] call on such a line,
    after the text file is written; no message is printed. *)
Theorem bitmap_font_run_fails_on_wide_text (rgb2l : Z * Z * Z -> Z)
    (resize : PIL.Gray -> Z * Z -> PIL.Gray) (truetype : string -> Z -> result Font)
    (load_default : Font) (stem parent : string -> string)
    (getrgb : string -> result (Z * Z * Z)) (save_format : string -> result string)
    (save_handler : string -> result unit) (w w1 wa wb : world) (args : Args)
    (p : string) (img0 : PIL.Image) (lines : list str) (font : Font)
    (rgb_fg rgb_bg : Z * Z * Z) :
  resolve_input parent save_format save_handler w args = (w1, Ok p) ->
  image_open parent w1 p = Ok img0 ->
  image_to_ascii_lines rgb2l resize (convert_RGB img0) (width args)
    (CHARSETS (charset args)) (invert args) (scale_y args) = Ok lines ->
  mkdir parent w1 "out" = (wa, Ok tt) ->
  lookup parent wa (parent (out_path_of (out_text args) (stem p) (width args) ".txt"))
  = Some Dir ->
  lookup parent wa (out_path_of (out_text args) (stem p) (width args) ".txt") <> Some Dir ->
  mkdir parent
    (write wa (out_path_of (out_text args) (stem p) (width args) ".txt")
           (Text (join_lines lines)))
    (parent (out_path_of (out_image args) (stem p) (width args) ".png"))
  = (wb, Ok tt) ->
  load_font truetype load_default parent wb (font_path args) (font_size args) = Ok font ->
  is_freetype font = false ->
  getrgb "black"%string = Ok rgb_fg -> getrgb "white"%string = Ok rgb_bg ->
  Exists (fun line => Exists (fun c => (256 <= c)%N) line) lines ->
  exists start stop,
    main rgb2l resize truetype load_default stem parent getrgb save_format save_handler w args
    = (wb, Raise (UnicodeEncodeError "latin-1" start stop)) /\
    lookup parent wb (out_path_of (out_text args) (stem p) (width args) ".txt")
    = Some (Text (join_lines lines)) /\
    stdout wb = stdout w1.
Proof.
  intros Hres Hopen Hconv Hmk Hpp Hp Hmk2 Hfont Hft Hfg Hbg Hwide.
  rewrite (main_after_text rgb2l resize truetype load_default stem parent getrgb save_format
             save_handler w w1 wa args p img0 lines Hres Hopen Hconv Hmk Hpp Hp).
  destruct (render_draw_Raise truetype load_default parent getrgb save_format save_handler
              _ wb lines _ _ _ _ _ font rgb_fg rgb_bg Hmk2 Hfont Hft Hfg Hbg Hwide)
    as [start [stop Hr]].
  rewrite Hr. exists start, stop. split; [reflexivity|].
  destruct (text_kept parent wa wb _ _ _ _ Hp Hmk2) as [Htxt Hout].
  split; [exact Htxt|]. rewrite Hout. exact (proj1 (mkdir_keeps parent _ _ _ _ Hmk)).
Qed.

(** ** Edge cases of the conversion *)

(** X8: a source image of zero width makes the conversion raise
    [ZeroDivisionError]: the ratio [width / float(w0)] divides by zero. *)
Theorem zero_width_source_raises (rgb2l : Z * Z * Z -> Z)
    (resize : PIL.Gray -> Z * Z -> PIL.Gray) (img : PIL.Image) (width : Z)
    (charset : str) (invert : bool) (scale_y fw : float) :
  fst (PIL.gsize (convert_L rgb2l img)) = 0 -> 10 <= width -> float_of_int width = Ok fw ->
  image_to_ascii_lines rgb2l resize img width charset invert scale_y
  = Raise (ZeroDivisionError "float division by zero").
Proof.
  intros Hw0 Hw Hfw. unfold image_to_ascii_lines, index_grid.
  assert (Hlt : (width <? 10) = false) by (apply Z.ltb_ge; lia). rewrite Hlt.
  destruct (PIL.gsize (convert_L rgb2l img)) as [w0 h0]. simpl in Hw0. subst w0.
  unfold target_size. change (float_of_int 0) with (Ok (S754_zero false)).
  cbn [bind]. rewrite Hfw. reflexivity.
Qed.

(** X9: a NaN scale factor makes the conversion raise the [ValueError] of
    [int()], for every source whose size arithmetic gets that far. *)
Theorem nan_scale_raises (rgb2l : Z * Z * Z -> Z)
    (resize : PIL.Gray -> Z * Z -> PIL.Gray) (img : PIL.Image) (width : Z)
    (charset : str) (invert : bool) (fw0 fw ratio fh0 : float) :
  10 <= width ->
  float_of_int (fst (PIL.gsize (convert_L rgb2l img))) = Ok fw0 ->
  float_of_int width = Ok fw -> truediv fw fw0 = Ok ratio ->
  float_of_int (snd (PIL.gsize (convert_L rgb2l img))) = Ok fh0 ->
  image_to_ascii_lines rgb2l resize img width charset invert S754_nan
  = Raise (ValueError "cannot convert float NaN to integer").
Proof.
  intros Hw H0 H1 H2 H3. unfold image_to_ascii_lines, index_grid.
  assert (Hlt : (width <? 10) = false) by (apply Z.ltb_ge; lia). rewrite Hlt.
  destruct (PIL.gsize (convert_L rgb2l img)) as [w0 h0]. simpl in H0, H3.
  unfold target_size. rewrite H0. cbn [bind]. rewrite H1. cbn [bind]. rewrite H2.
  cbn [bind]. rewrite H3. cbn [bind].
  assert (Hnan : fmul (fmul fh0 ratio) S754_nan = S754_nan).
  { unfold fmul. destruct (SFmul 53 1024 fh0 ratio); reflexivity. }
  rewrite Hnan. reflexivity.
Qed.

Lemma vals_white :
  Np.f32_sub (Np.f32_of_Z 1) (Np.f32_div (Np.f32_of_Z 255) (Np.f32_of_Z 255))
  = S754_zero false.
Proof. vm_compute. reflexivity. Qed.

Lemma quantize_white (n : Z) : 1 <= n -> quantize n 255 = 0.
Proof.
  intros Hn. unfold quantize. rewrite vals_white.
  generalize (Np.f32_of_Z (n - 1)). intros fn.
  assert (H : Np.astype_int32 (Np.round (Np.f32_mul (S754_zero false) fn)) = 0 \/
              Np.astype_int32 (Np.round (Np.f32_mul (S754_zero false) fn)) = - 2 ^ 31).
  { destruct fn; [left|right|right|left]; reflexivity. }
  unfold Np.clip. destruct H as [-> | ->]; lia.
Qed.

(** X10: a white grid (every pixel 255) is converted, without inversion, to
    the first palette character at every position, for every non-empty
    palette whatever its size; so is a black grid with inversion. *)
Theorem white_grid_first_character (rgb2l : Z * Z * Z -> Z)
    (resize : PIL.Gray -> Z * Z -> PIL.Gray) (g : PIL.Gray) (width : Z)
    (charset : str) (invert : bool) (scale_y : float) (size1 : Z * Z) :
  PIL.resize_contract resize -> PIL.resize_constant resize ->
  PIL.source_grid g -> PIL.uniform g (if invert then 0 else 255) ->
  10 <= width -> charset <> [] ->
  target_size (PIL.gsize g) width scale_y = Ok size1 ->
  exists first lines,
    getitem charset 0 = Ok first /\
    image_to_ascii_lines rgb2l resize (PIL.L g) width charset invert scale_y = Ok lines /\
    1 <= len lines /\
    Forall (fun line => len line = width /\ Forall (fun c => c = first) line) lines.
Proof.
  intros Hres Hconst Hg Hu Hw Hne Hs.
  destruct (target_size_Ok _ _ _ _ Hs) as [Hw1 Hh1].
  destruct (uniform_lines rgb2l resize g (if invert then 0 else 255) width charset invert
              scale_y size1 Hres Hconst Hg Hu Hw Hne Hs)
    as [lines [c [Hl [Hc [Hall [Hrows Hcols]]]]]].
  assert (Hv : (if invert then Np.uint8_sub 255 (if invert then 0 else 255)
                else (if invert then 0 else 255)) = 255) by (destruct invert; reflexivity).
  rewrite Hv in Hc. rewrite (quantize_white (len charset) (len_pos charset Hne)) in Hc.
  exists c, lines. split; [exact Hc|]. split; [exact Hl|]. split.
  - unfold len. rewrite Hrows. lia.
  - rewrite Forall_forall in Hall, Hcols. apply Forall_forall. intros line Hin. split.
    + unfold len. rewrite (Hcols line Hin), Hw1. lia.
    + exact (Hall line Hin).
Qed.

(** X11: with an empty palette the conversion of a source grid raises
    [IndexError]: every index is clipped to -1 and [charset[-1]] does not
    exist. *)
Theorem empty_palette_raises (rgb2l : Z * Z * Z -> Z)
    (resize : PIL.Gray -> Z * Z -> PIL.Gray) (g : PIL.Gray) (width : Z)
    (invert : bool) (scale_y : float) (size1 : Z * Z) :
  PIL.resize_contract resize -> PIL.source_grid g -> 10 <= width ->
  target_size (PIL.gsize g) width scale_y = Ok size1 ->
  image_to_ascii_lines rgb2l resize (PIL.L g) width [] invert scale_y
  = Raise (IndexError "string index out of range").
Proof.
  intros Hres Hg Hw Hs. destruct size1 as [w1 h1].
  destruct (target_size_Ok _ _ _ _ Hs) as [Hw1 Hh1]. simpl in Hw1, Hh1.
  destruct (Hres g w1 h1 Hg) as [Hsz [_ [_ [Hrows Hcols]]]]; [lia|lia|].
  rewrite Hsz in Hrows, Hcols. simpl in Hrows, Hcols.
  unfold image_to_ascii_lines.
  rewrite (index_grid_Ok rgb2l resize (PIL.L g) width [] invert scale_y (w1, h1) Hw Hs).
  simpl convert_L. cbn [bind].
  destruct (PIL.gdata (resize g (w1, h1))) as [|row rest] eqn:Hdata.
  { simpl in Hrows. lia. }
  inversion Hcols as [|? ? [Hrow _] _]; subst.
  destruct row as [|v row']; [simpl in Hrow; lia|].
  rewrite palette_indices_quantize. unfold build_lines, amap. cbn [map mapM].
  assert (Hq : quantize (len (@nil char))
                 (if invert then Np.uint8_sub 255 v else v) = -1).
  { unfold quantize, Np.clip. change (len (@nil char) - 1) with (-1). lia. }
  rewrite Hq. reflexivity.
Qed.

(** ** Polarity of the quantizer *)

Lemma Qround_half_even_range (q : Q) :
  Qfloor q <= Qround_half_even q <= Qfloor q + 1.
Proof.
  unfold Qround_half_even.
  destruct (Qcompare (q - inject_Z (Qfloor q)) (1 # 2)); [destruct (Z.even _)| |]; lia.
Qed.

Lemma Qround_half_even_mono (p q : Q) :
  (p <= q)%Q -> Qround_half_even p <= Qround_half_even q.
Proof.
  intros Hpq. pose proof (Qfloor_resp_le p q Hpq) as Hf.
  pose proof (Qround_half_even_range p) as Hp.
  pose proof (Qround_half_even_range q) as Hq.
  destruct (Z.eq_dec (Qfloor p) (Qfloor q)) as [Heq|Hne]; [|lia].
  unfold Qround_half_even in *. rewrite <- Heq in *.
  assert (Hd : (p - inject_Z (Qfloor p) <= q - inject_Z (Qfloor p))%Q).
  { apply Qplus_le_compat; [exact Hpq|apply Qle_refl]. }
  destruct (Qcompare (p - inject_Z (Qfloor p)) (1 # 2)) eqn:Cp;
    destruct (Qcompare (q - inject_Z (Qfloor p)) (1 # 2)) eqn:Cq;
    try (destruct (Z.even (Qfloor p)); lia); try lia.
  - apply Qeq_alt in Cp. apply Qlt_alt in Cq. exfalso.
    apply (Qlt_irrefl (1 # 2)). rewrite <- Cp at 1.
    eapply Qle_lt_trans; eauto.
  - apply Qgt_alt in Cp. apply Qeq_alt in Cq. exfalso.
    apply (Qlt_irrefl (1 # 2)). rewrite <- Cq at 2.
    eapply Qlt_le_trans; eauto.
  - apply Qgt_alt in Cp. apply Qlt_alt in Cq. exfalso.
    apply (Qlt_irrefl (1 # 2)).
    eapply Qlt_trans; [exact Cp|]. eapply Qle_lt_trans; eauto.
Qed.

Lemma spec_index_antitone (n v1 v2 : Z) :
  1 <= n -> v1 <= v2 -> spec_index n v2 <= spec_index n v1.
Proof.
  intros Hn Hv. unfold spec_index, Np.clip.
  assert (H : Qround_half_even ((1 - inject_Z v2 / 255) * inject_Z (n - 1))
              <= Qround_half_even ((1 - inject_Z v1 / 255) * inject_Z (n - 1))).
  { apply Qround_half_even_mono. apply Qmult_le_compat_r.
    - apply Qplus_le_compat; [apply Qle_refl|]. apply Qopp_le_compat.
      apply Qmult_le_compat_r; [|discriminate]. rewrite <- Zle_Qle. exact Hv.
    - change 0%Q with (inject_Z 0). rewrite <- Zle_Qle. lia. }
  lia.
Qed.

(** X12: darker pixels get later palette characters: in one row of the
    resized image, a pixel at least as bright as another one gets a
    palette index that is not larger (palettes of 1 to 256 characters). *)
Theorem darker_pixel_later_index (charset : str) (v1 v2 i1 i2 : Z) :
  1 <= len charset <= 256 -> PIL.is_uint8 v1 -> PIL.is_uint8 v2 -> v1 <= v2 ->
  palette_indices charset false [[v1; v2]] = [[i1; i2]] ->
  i2 <= i1.
Proof.
  intros Hn Hv1 Hv2 Hle Hidx.
  rewrite palette_indices_quantize in Hidx. unfold amap in Hidx. cbn [map] in Hidx.
  inversion Hidx; subst.
  destruct (quantize_checked (len charset) v1 Hn Hv1) as [-> _].
  destruct (quantize_checked (len charset) v2 Hn Hv2) as [-> _].
  apply spec_index_antitone; [lia|exact Hle].
Qed.

(** ** The text written *)

Lemma join_lines_cons (line : str) (rest : list str) :
  rest <> [] -> join_lines (line :: rest) = line ++ 10%N :: join_lines rest.
Proof. destruct rest; [congruence|reflexivity]. Qed.

Lemma join_lines_length (lines : list str) (n : Z) :
  lines <> [] -> Forall (fun line => len line = n) lines ->
  len (join_lines lines) = len lines * (n + 1) - 1.
Proof.
  intros Hne Hall. revert Hne.
  induction Hall as [|line rest Hline Hrest IH]; intros Hne; [now contradiction Hne|].
  destruct rest as [|line' rest'].
  - cbn [join_lines]. unfold len in *. cbn [List.length]. lia.
  - rewrite join_lines_cons by discriminate.
    unfold len in *. rewrite length_app. cbn [List.length].
    specialize (IH ltac:(discriminate)). cbn [List.length] in IH. lia.
Qed.

Lemma join_lines_newlines (lines : list str) :
  Forall (fun line => ~ In 10%N line) lines ->
  count_occ N.eq_dec (join_lines lines) 10%N = (List.length lines - 1)%nat.
Proof.
  intros Hall. induction Hall as [|line rest Hline Hrest IH]; [reflexivity|].
  destruct rest as [|line' rest'].
  - simpl. apply count_occ_not_In. exact Hline.
  - rewrite join_lines_cons by discriminate.
    assert (E : count_occ N.eq_dec line 10%N = 0%nat) by (apply count_occ_not_In; exact Hline).
    rewrite count_occ_app. unfold char in *. rewrite E.
    rewrite count_occ_cons_eq by reflexivity. rewrite IH. cbn [List.length]. lia.
Qed.

Lemma preset_has_no_newline (name : charset_name) : ~ In 10%N (CHARSETS name).
Proof.
  destruct name; vm_compute; intros H;
    repeat (destruct H as [H|H]; [discriminate|]); exact H.
Qed.

(** X13: the text of a converted source grid, for every preset palette: the
    [new_h] lines of [width] characters joined by [new_h - 1] newlines and
    no trailing newline, [new_h * (width + 1) - 1] characters in all. *)
Theorem text_shape (rgb2l : Z * Z * Z -> Z)
    (resize : PIL.Gray -> Z * Z -> PIL.Gray) (g : PIL.Gray) (width : Z)
    (name : charset_name) (invert : bool) (scale_y : float) (size1 : Z * Z) :
  PIL.resize_contract resize -> PIL.source_grid g -> 10 <= width ->
  target_size (PIL.gsize g) width scale_y = Ok size1 ->
  exists lines,
    image_to_ascii_lines rgb2l resize (PIL.L g) width (CHARSETS name) invert scale_y
    = Ok lines /\
    len (join_lines lines) = snd size1 * (width + 1) - 1 /\
    Z.of_nat (count_occ N.eq_dec (join_lines lines) 10%N) = snd size1 - 1.
Proof.
  intros Hres Hg Hw Hs. destruct size1 as [w1 h1].
  destruct (target_size_Ok _ _ _ _ Hs) as [Hw1 Hh1]. simpl in Hw1, Hh1. subst w1.
  destruct (lines_shape rgb2l resize g width (CHARSETS name) invert scale_y width h1
              Hres Hg Hw (CHARSETS_nonempty name) Hs) as [lines [Hl [Hb [Hrows Hcols]]]].
  assert (Hlen : len lines = h1) by (unfold len; rewrite Hrows; lia).
  assert (Hlines : lines <> []).
  { intros ->. unfold len in Hlen. simpl in Hlen. lia. }
  exists lines. split; [exact Hl|]. cbn [snd]. split.
  - rewrite (join_lines_length lines width Hlines), Hlen; [reflexivity|].
    eapply Forall_impl; [|exact Hcols]. intros line Hline. simpl in Hline.
    unfold len. rewrite Hline. lia.
  - rewrite join_lines_newlines.
    + unfold len in Hlen. lia.
    + apply build_lines_In in Hb. eapply Forall_impl; [|exact Hb].
      intros line Hline Hin. simpl in Hline. rewrite Forall_forall in Hline.
      exact (preset_has_no_newline name (Hline _ Hin)).
Qed.

(** ** Examples for the further properties *)

Lemma default_font_fallback_witness :
  find_monospace_font no_truetype bitmap_font posix_parent empty_world None = bitmap_font.
Proof.
  apply (default_font_fallback no_truetype bitmap_font posix_parent empty_world None).
  - intros p Hp. discriminate.
  - repeat constructor.
Defined.


Lemma converted_grid_canvas_witness :
  exists lines c,
    image_to_ascii_lines luma PIL.resize_nearest (PIL.L (PIL.solid 20 20 0)) 10
      (CHARSETS dense) false float_0_5 = Ok lines /\
    render_ascii_to_image no_truetype bitmap_font posix_parent named_colors png_only
      rgb_writer empty_world lines "out/a.png" None 14 "black" "white"
    = (write (write empty_world "out" Dir) "out/a.png" (Png c), Ok "out/a.png"%string) /\
    csize c = (10 * fst (char_cell_size bitmap_font), snd (10, 5) * snd (char_cell_size bitmap_font)).
Proof.
  apply (converted_grid_canvas luma PIL.resize_nearest no_truetype bitmap_font posix_parent
           named_colors png_only rgb_writer empty_world (write empty_world "out" Dir)
           (PIL.solid 20 20 0) 10 (CHARSETS dense) false float_0_5 (10, 5)
           "out/a.png" None 14 "black" "white" bitmap_font "PNG" (0, 0, 0)
           (255, 255, 255)).
  - exact resize_nearest_contract.
  - apply solid_source_grid; unfold PIL.is_uint8; lia.
  - lia.
  - discriminate.
  - vm_compute. reflexivity.
  - reflexivity.
  - reflexivity.
  - right. repeat (apply Forall_cons; [reflexivity|]). apply Forall_nil.
  - reflexivity.
  - reflexivity.
  - reflexivity.
  - reflexivity.
  - discriminate.
Defined.

Lemma small_width_run_exits_witness :
  main luma PIL.resize_nearest no_truetype bitmap_font posix_stem posix_parent named_colors
    png_only rgb_writer photo_world (photo_args 5 None 14)
  = (photo_world, Raise (ValueError width_too_small)) /\
  exit_status (snd (main luma PIL.resize_nearest no_truetype bitmap_font posix_stem
                      posix_parent named_colors png_only rgb_writer photo_world
                      (photo_args 5 None 14))) = 1.
Proof.
  apply (small_width_run_exits luma PIL.resize_nearest no_truetype bitmap_font posix_stem
           posix_parent named_colors png_only rgb_writer photo_world (photo_args 5 None 14)
           "photo.png" (PIL.L (PIL.solid 20 20 0))).
  - reflexivity.
  - reflexivity.
  - discriminate.
  - reflexivity.
  - simpl. lia.
Defined.

Lemma render_failure_keeps_text_witness :
  exists w2,
    main luma PIL.resize_nearest mono_ttf bitmap_font posix_stem posix_parent named_colors
      png_only rgb_writer font_world (photo_args 10 (Some "fonts/mono.ttf"%string) 0)
    = (w2, Raise (ValueError "font size must be greater than 0")) /\
    lookup posix_parent w2 (out_path_of None (posix_stem "photo.png") 10 ".txt")
    = Some (Text (join_lines (repeat (repeat 32%N 10) 5))) /\
    stdout w2 = stdout font_world.
Proof.
  apply (render_failure_keeps_text luma PIL.resize_nearest mono_ttf bitmap_font posix_stem
           posix_parent named_colors png_only rgb_writer font_world font_world
           (write font_world "out" Dir)
           (write (write font_world "out" Dir) "out/photo_10.txt"
                  (Text (join_lines (repeat (repeat 32%N 10) 5))))
           (photo_args 10 (Some "fonts/mono.ttf"%string) 0) "photo.png"
           (PIL.L (PIL.solid 20 20 0)) (repeat (repeat 32%N 10) 5)
           (ValueError "font size must be greater than 0")).
  - reflexivity.
  - reflexivity.
  - vm_compute. reflexivity.
  - reflexivity.
  - reflexivity.
  - vm_compute. discriminate.
  - reflexivity.
  - vm_compute. reflexivity.
Defined.


Lemma bitmap_font_run_fails_on_wide_text_witness :
  exists start stop,
    main luma PIL.resize_nearest no_truetype bitmap_font posix_stem posix_parent named_colors
      png_only rgb_writer photo_world
      (mkArgs (Some "photo.png"%string) 10 true blocks float_0_5 None None None 14 false)
    = (write (write photo_world "out" Dir) "out/photo_10.txt"
             (Text (join_lines (repeat (repeat 9608%N 10) 5))),
       Raise (UnicodeEncodeError "latin-1" start stop)) /\
    lookup posix_parent
      (write (write photo_world "out" Dir) "out/photo_10.txt"
             (Text (join_lines (repeat (repeat 9608%N 10) 5))))
      (out_path_of None (posix_stem "photo.png") 10 ".txt")
    = Some (Text (join_lines (repeat (repeat 9608%N 10) 5))) /\
    stdout (write (write photo_world "out" Dir) "out/photo_10.txt"
                  (Text (join_lines (repeat (repeat 9608%N 10) 5))))
    = stdout photo_world.
Proof.
  apply (bitmap_font_run_fails_on_wide_text luma PIL.resize_nearest no_truetype bitmap_font
           posix_stem posix_parent named_colors png_only rgb_writer photo_world photo_world
           (write photo_world "out" Dir)
           (write (write photo_world "out" Dir) "out/photo_10.txt"
                  (Text (join_lines (repeat (repeat 9608%N 10) 5))))
           (mkArgs (Some "photo.png"%string) 10 true blocks float_0_5 None None None 14 false)
           "photo.png" (PIL.L (PIL.solid 20 20 0)) (repeat (repeat 9608%N 10) 5)
           bitmap_font (0, 0, 0) (255, 255, 255)).
  - reflexivity.
  - reflexivity.
  - vm_compute. reflexivity.
  - reflexivity.
  - reflexivity.
  - vm_compute. discriminate.
  - reflexivity.
  - reflexivity.
  - reflexivity.
  - reflexivity.
  - reflexivity.
  - apply Exists_cons_hd. apply Exists_cons_hd. vm_compute. discriminate.
Defined.

Lemma zero_width_source_raises_witness :
  image_to_ascii_lines luma PIL.resize_nearest (PIL.L (PIL.mkGray (0, 5) (repeat [] 5))) 10
    (CHARSETS dense) false float_0_5
  = Raise (ZeroDivisionError "float division by zero").
Proof.
  apply (zero_width_source_raises luma PIL.resize_nearest
           (PIL.L (PIL.mkGray (0, 5) (repeat [] 5))) 10 (CHARSETS dense) false float_0_5
           (S754_finite false 5629499534213120 (-49))).
  - reflexivity.
  - lia.
  - vm_compute. reflexivity.
Defined.

Lemma nan_scale_raises_witness :
  image_to_ascii_lines luma PIL.resize_nearest (PIL.L (PIL.solid 10 7 0)) 10
    (CHARSETS dense) false S754_nan
  = Raise (ValueError "cannot convert float NaN to integer").
Proof.
  apply (nan_scale_raises luma PIL.resize_nearest (PIL.L (PIL.solid 10 7 0)) 10
           (CHARSETS dense) false
           (S754_finite false 5629499534213120 (-49))
           (S754_finite false 5629499534213120 (-49))
           (S754_finite false 4503599627370496 (-52))
           (S754_finite false 7881299347898368 (-50))).
  - lia.
  - vm_compute. reflexivity.
  - vm_compute. reflexivity.
  - vm_compute. reflexivity.
  - vm_compute. reflexivity.
Defined.

Lemma white_grid_first_character_witness :
  exists first lines,
    getitem (CHARSETS blocks) 0 = Ok first /\
    image_to_ascii_lines luma PIL.resize_nearest (PIL.L (PIL.solid 20 20 255)) 10
      (CHARSETS blocks) false float_0_5 = Ok lines /\
    1 <= len lines /\
    Forall (fun line => len line = 10 /\ Forall (fun c => c = first) line) lines.
Proof.
  apply (white_grid_first_character luma PIL.resize_nearest (PIL.solid 20 20 255) 10
           (CHARSETS blocks) false float_0_5 (10, 5)).
  - exact resize_nearest_contract.
  - exact resize_nearest_constant.
  - apply solid_source_grid; unfold PIL.is_uint8; lia.
  - apply solid_uniform.
  - lia.
  - discriminate.
  - vm_compute. reflexivity.
Defined.

Lemma empty_palette_raises_witness :
  image_to_ascii_lines luma PIL.resize_nearest (PIL.L (PIL.solid 20 20 0)) 10 [] false
    float_0_5
  = Raise (IndexError "string index out of range").
Proof.
  apply (empty_palette_raises luma PIL.resize_nearest (PIL.solid 20 20 0) 10 false
           float_0_5 (10, 5)).
  - exact resize_nearest_contract.
  - apply solid_source_grid; unfold PIL.is_uint8; lia.
  - lia.
  - vm_compute. reflexivity.
Defined.

Lemma darker_pixel_later_index_witness : 2 <= 9.
Proof.
  apply (darker_pixel_later_index (CHARSETS dense) 10 200 9 2).
  - vm_compute. split; discriminate.
  - unfold PIL.is_uint8. lia.
  - unfold PIL.is_uint8. lia.
  - lia.
  - vm_compute. reflexivity.
Defined.

Lemma text_shape_witness :
  exists lines,
    image_to_ascii_lines luma PIL.resize_nearest (PIL.L (PIL.solid 20 20 0)) 10
      (CHARSETS dense) false float_0_5 = Ok lines /\
    len (join_lines lines) = snd (10, 5) * (10 + 1) - 1 /\
    Z.of_nat (count_occ N.eq_dec (join_lines lines) 10%N) = snd (10, 5) - 1.
Proof.
  apply (text_shape luma PIL.resize_nearest (PIL.solid 20 20 0) 10 dense false float_0_5
           (10, 5)).
  - exact resize_nearest_contract.
  - apply solid_source_grid; unfold PIL.is_uint8; lia.
  - lia.
  - vm_compute. reflexivity.
Defined.
